(** * A shallow embedding of addic7ed/core.py (service.subtitles.rvm.addic7ed)

    The module is Python; strings are modelled as Rocq byte strings
    ([String.string]), [str.lower] as ASCII lower-casing, and the Python
    functions as computations in a small state-and-exception monad whose state
    records the observable effects on the host (Kodi): the list of host calls
    in order, and the files of the file system relevant to the staging
    directory. Logging ([logger.*]) has no observable effect on the host and
    is left out. *)

From Stdlib Require Import String Ascii List Bool ZArith Lia.
Import ListNotations.
Open Scope list_scope.
Open Scope string_scope.

(** ** String helpers (Python [str] methods used by the module) *)

Definition newline : ascii := "010"%char.

Definition ascii_lower (c : ascii) : ascii :=
  let n := nat_of_ascii c in
  if (65 <=? n)%nat && (n <=? 90)%nat then ascii_of_nat (n + 32)%nat else c.

(** [str.lower] *)
Fixpoint lower (s : string) : string :=
  match s with
  | EmptyString => EmptyString
  | String c r => String (ascii_lower c) (lower r)
  end.

(** [str.startswith] *)
Fixpoint startswith (s p : string) : bool :=
  match p, s with
  | EmptyString, _ => true
  | String c p', String d s' => Ascii.eqb c d && startswith s' p'
  | String _ _, EmptyString => false
  end.

(** [needle in haystack] for strings *)
Fixpoint str_contains (needle hay : string) : bool :=
  startswith hay needle ||
  match hay with
  | EmptyString => false
  | String _ r => str_contains needle r
  end.

(** ** The regular expression [release_re = re.compile(r'-(.*?)(?:\[.*?\])?\.')]

    [re.search] tries the start positions from left to right; at a start
    position the pattern needs a ['-']; the lazy group [(.*?)] then takes the
    fewest characters (none of them a newline, which [.] does not match) after
    which the rest of the pattern, [(?:\[.*?\])?\.], matches. *)

(** The tail [\.] of [\[.*?\]\.], after the ['[']: a lazy run of non-newline
    characters, then [']'], then ['.']. *)
Fixpoint close_bracket_dot (s : string) : bool :=
  match s with
  | EmptyString => false
  | String c r =>
      (Ascii.eqb c "]"%char && startswith r ".")
      || (negb (Ascii.eqb c newline) && close_bracket_dot r)
  end.

(** [(?:\[.*?\])?\.] at the start of [s]: the optional group is tried first
    (it is greedy), then skipped. *)
Definition release_tail (s : string) : bool :=
  match s with
  | String c r =>
      (Ascii.eqb c "["%char && close_bracket_dot r) || Ascii.eqb c "."%char
  | EmptyString => false
  end.

(** [-(.*?)...] after the ['-']: the text of group 1, if any. *)
Fixpoint lazy_group (s : string) : option string :=
  if release_tail s then Some EmptyString
  else match s with
       | EmptyString => None
       | String c r =>
           if Ascii.eqb c newline then None
           else option_map (String c) (lazy_group r)
       end.

(** [release_re.search(s)] and its [group(1)]. *)
Fixpoint release_search (s : string) : option string :=
  match s with
  | EmptyString => None
  | String c r =>
      if Ascii.eqb c "-"%char then
        match lazy_group r with
        | Some g => Some g
        | None => release_search r
        end
      else release_search r
  end.

(** ** More of Python's [str], [bytes], [os.path] and [urllib.parse] *)

Definition is_empty (s : string) : bool :=
  match s with EmptyString => true | _ => false end.

Definition dquote : ascii := ascii_of_nat 34.
Definition squote : ascii := ascii_of_nat 39.
Definition backslash : ascii := ascii_of_nat 92.

Fixpoint str_has (c : ascii) (s : string) : bool :=
  match s with
  | EmptyString => false
  | String d r => Ascii.eqb c d || str_has c r
  end.

(** [s.split(sep)] for a one-character separator *)
Fixpoint split_on (sep : ascii) (s : string) : list string :=
  match s with
  | EmptyString => [EmptyString]
  | String c r =>
      match split_on sep r with
      | [] => [String c EmptyString]
      | w :: ws => if Ascii.eqb c sep then EmptyString :: w :: ws
                   else String c w :: ws
      end
  end.

(** [s.split(sep, 1)] for a one-character separator *)
Fixpoint split_once (sep : ascii) (s : string) : option (string * string) :=
  match s with
  | EmptyString => None
  | String c r =>
      if Ascii.eqb c sep then Some (EmptyString, r)
      else match split_once sep r with
           | Some (a, b) => Some (String c a, b)
           | None => None
           end
  end.

(** [s.replace(a, b)] for one character by one character *)
Fixpoint replace_char (a b : ascii) (s : string) : string :=
  match s with
  | EmptyString => EmptyString
  | String c r => String (if Ascii.eqb c a then b else c) (replace_char a b r)
  end.

(** [str(n)] for a non-negative [int] *)
Fixpoint str_nat_aux (fuel n : nat) (acc : string) : string :=
  match fuel with
  | O => acc
  | S f =>
      let acc' := String (ascii_of_nat (48 + n mod 10)) acc in
      if (n <? 10)%nat then acc' else str_nat_aux f (n / 10) acc'
  end.
Definition str_nat (n : nat) : string := str_nat_aux (S n) n EmptyString.

Fixpoint zeros (n : nat) : string :=
  match n with O => EmptyString | S k => String "0"%char (zeros k) end.

(** [s.zfill(width)]: zeros are inserted after a leading sign *)
Definition zfill (s : string) (width : nat) : string :=
  let len := String.length s in
  if (width <=? len)%nat then s
  else match s with
       | String c r =>
           if Ascii.eqb c "+"%char || Ascii.eqb c "-"%char
           then String c (zeros (width - len) ++ r)
           else zeros (width - len) ++ s
       | EmptyString => zeros width
       end.

Definition hex_lower (n : nat) : ascii :=
  if (n <? 10)%nat then ascii_of_nat (48 + n) else ascii_of_nat (87 + n).
Definition hex_upper (n : nat) : ascii :=
  if (n <? 10)%nat then ascii_of_nat (48 + n) else ascii_of_nat (55 + n).

(** The body of [repr(b)] of a [bytes] object quoted with [q], closing quote
    included (CPython's [bytes_repr]). *)
Fixpoint bytes_repr_body (q : ascii) (s : string) : string :=
  match s with
  | EmptyString => String q EmptyString
  | String c r =>
      let n := nat_of_ascii c in
      if Ascii.eqb c q || Ascii.eqb c backslash then
        String backslash (String c (bytes_repr_body q r))
      else if (n =? 9)%nat then String backslash (String "t"%char (bytes_repr_body q r))
      else if (n =? 10)%nat then String backslash (String "n"%char (bytes_repr_body q r))
      else if (n =? 13)%nat then String backslash (String "r"%char (bytes_repr_body q r))
      else if (n <? 32)%nat || (127 <=? n)%nat then
        String backslash (String "x"%char
          (String (hex_lower (n / 16)) (String (hex_lower (n mod 16)) (bytes_repr_body q r))))
      else String c (bytes_repr_body q r)
  end.

(** [repr(b)] of a [bytes] object, as [str(b)] and [format] give it in
    Python 3: double quotes when [b] has a single quote and no double
    quote. *)
Definition bytes_repr (b : string) : string :=
  let q := if str_has squote b && negb (str_has dquote b) then dquote else squote in
  String "b"%char (String q (bytes_repr_body q b)).

(** The value of a hexadecimal digit *)
Definition hex_val (c : ascii) : option nat :=
  let n := nat_of_ascii c in
  if (48 <=? n)%nat && (n <=? 57)%nat then Some (n - 48)
  else if (65 <=? n)%nat && (n <=? 70)%nat then Some (n - 55)
  else if (97 <=? n)%nat && (n <=? 102)%nat then Some (n - 87)
  else None.

(** [urllib.parse.unquote]: every [%XX] with two hex digits is the byte
    [XX]; any other ['%'] stays. *)
Fixpoint unquote (s : string) : string :=
  match s with
  | EmptyString => EmptyString
  | String c t =>
      if Ascii.eqb c "%"%char then
        match t with
        | String a (String b r) =>
            match hex_val a, hex_val b with
            | Some x, Some y => String (ascii_of_nat (x * 16 + y)) (unquote r)
            | _, _ => String c (unquote t)
            end
        | _ => String c (unquote t)
        end
      else String c (unquote t)
  end.

(** [urllib.parse.unquote_plus] *)
Definition unquote_plus (s : string) : string :=
  unquote (replace_char "+"%char " "%char s).

(** [urllib.parse.quote_plus] with the default [safe='']: letters, digits
    and ['_.-~'] stay, a space becomes ['+'], any other byte [%XX]. *)
Fixpoint quote_plus (s : string) : string :=
  match s with
  | EmptyString => EmptyString
  | String c r =>
      let n := nat_of_ascii c in
      if ((48 <=? n) && (n <=? 57) || (65 <=? n) && (n <=? 90)
          || (97 <=? n) && (n <=? 122))%nat
         || str_has c "_.-~" then String c (quote_plus r)
      else if (n =? 32)%nat then String "+"%char (quote_plus r)
      else String "%"%char (String (hex_upper (n / 16))
                             (String (hex_upper (n mod 16)) (quote_plus r)))
  end.

(** [urllib.parse.urlencode] of a [dict] with string values, in insertion
    order. *)
Definition urlencode (kvs : list (string * string)) : string :=
  String.concat "&" (map (fun '(k, v) => quote_plus k ++ "=" ++ quote_plus v) kvs).

(** [urllib.parse.parse_qsl(qs)] with its defaults ([keep_blank_values=False],
    [strict_parsing=False], separator ['&']): a field with no ['='] or an
    empty value is dropped. *)
Definition parse_qsl (qs : string) : list (string * string) :=
  flat_map (fun nv =>
      if is_empty nv then []
      else match split_once "="%char nv with
           | None => []
           | Some (n, v) =>
               if is_empty v then []
               else [(unquote_plus n, unquote_plus v)]
           end)
    (split_on "&"%char qs).

(** [dict(pairs)[key]]: the last pair with the key wins; [None] is the
    [KeyError]. *)
Definition dict_get (pairs : list (string * string)) (key : string) : option string :=
  match find (fun '(k, _) => String.eqb k key) (rev pairs) with
  | Some (_, v) => Some v
  | None => None
  end.

(** [os.path] (POSIX) *)

(** [os.path.basename]: the text after the last ['/'] *)
Fixpoint basename (p : string) : string :=
  match p with
  | EmptyString => EmptyString
  | String c r =>
      if str_has "/"%char r then basename r
      else if Ascii.eqb c "/"%char then r else p
  end.

(** [os.path.join(a, b)] for two components *)
Definition path_join (a b : string) : string :=
  if startswith b "/" then b
  else if is_empty a || startswith (string_of_list_ascii (rev (list_ascii_of_string a))) "/"
  then a ++ b
  else a ++ "/" ++ b.

(** [p.rfind(c)] *)
Definition rfind (c : ascii) (p : string) : option nat :=
  let fix go (s : string) (i : nat) (best : option nat) :=
    match s with
    | EmptyString => best
    | String d r => go r (S i) (if Ascii.eqb c d then Some i else best)
    end in
  go p 0 None.

Fixpoint all_dots (s : string) : bool :=
  match s with
  | EmptyString => true
  | String c r => Ascii.eqb c "."%char && all_dots r
  end.

(** [os.path.splitext] ([genericpath._splitext] with [sep='/'],
    [extsep='.']): the extension starts at the last dot, if that dot comes
    after the last slash and some character between them is not a dot. *)
Definition splitext (p : string) : string * string :=
  let sep_index := match rfind "/"%char p with Some i => Z.of_nat i | None => (-1)%Z end in
  match rfind "."%char p with
  | Some d =>
      if (sep_index <? Z.of_nat d)%Z then
        let start := Z.to_nat (sep_index + 1) in
        if all_dots (String.substring start (d - start) p) then (p, EmptyString)
        else (String.substring 0 d p, String.substring d (String.length p - d) p)
      else (p, EmptyString)
  | None => (p, EmptyString)
  end.

(** ** Data model *)

(** The exceptions the module raises or catches. [ConnectionError] is
    Python's built-in; [KeyError], [IndexError] and [AttributeError] are
    raised by [dict] and [list] lookups and attribute access. *)
Inductive exn : Type :=
  | ConnectionError
  | DailyLimitError
  | ParseError
  | SubsSearchError
  | KeyError
  | IndexError
  | AttributeError.

(** Modelled from the spec: addic7ed/exceptions.py (not in the sources) is
    the taxonomy of the spec's section 7, whose conditions are distinct: no
    one of [DailyLimitError], [ParseError], [SubsSearchError] is caught by an
    [except] clause naming another. *)
Definition exn_eqb (a b : exn) : bool :=
  match a, b with
  | ConnectionError, ConnectionError | DailyLimitError, DailyLimitError
  | ParseError, ParseError | SubsSearchError, SubsSearchError
  | KeyError, KeyError | IndexError, IndexError
  | AttributeError, AttributeError => true
  | _, _ => false
  end.

(** The subtitles of an episode, as [parser] returns them *)
Record SubtitleItem := mkSubtitleItem {
  language : string;
  version : string;
  hi : bool;
  link : string
}.

Record EpisodeCandidate := mkEpisodeCandidate {
  title : string;
  cand_link : string
}.

(** A search result: one episode ([subtitles], [episode_url]), or a Python
    [list] of candidate episodes. *)
Inductive SearchResult : Type :=
  | Episode (subtitles : list SubtitleItem) (episode_url : string)
  | Candidates (items : list EpisodeCandidate).

(** [EpisodeData = namedtuple('EpisodeData', ['showname', 'season',
    'episode', 'filename'])] *)
Record EpisodeData := mkEpisodeData {
  showname : string;
  season : string;
  episode : string;
  filename : string
}.

(** [xbmcgui.ListItem] with the properties the module sets *)
Record ListItem := mkListItem {
  li_label : string;
  li_label2 : string;
  li_thumbnail : string;
  li_hearing_imp : bool;
  li_sync : bool
}.

(** The dict [utils.get_now_played()] returns *)
Record NowPlayed := mkNowPlayed {
  np_file : string;
  np_showtitle : string;
  np_season : nat;
  np_episode : nat;
  np_label : string
}.

(** The host calls the module makes, and its calls to the provider
    ([parser]), in the order they happen. *)
Inductive Event : Type :=
  | AddDirectoryItem (handle : Z) (url : string) (li : ListItem) (isFolder : bool)
  | EndOfDirectory (handle : Z)
  | Notification (heading message icon : string) (time : Z) (sound : bool)
  | Select (heading : string) (options : list string)
  | CallSearchEpisode (query : string) (languages : list string)
  | CallGetEpisode (link : string) (languages : list string)
  | CallDownloadSubs (link referrer path : string)
  | RmTree (path : string)
  | MkDirs (path : string).

(** What one invocation of the module sees of the world: the host's answers
    and the provider's. The functions of [utils] that the sources do not
    contain ([parse_filename], [normalize_showname], [get_languages]) are
    arbitrary: every statement below holds for all of them. A failed
    [parse_filename] ([ParseError]) is [None]; a provider answer is an
    exception or a value. *)
Record Env := mkEnv {
  argv0 : string;                                 (* sys.argv[0] *)
  handle : Z;                                     (* int(sys.argv[1]) *)
  profile : string;
  now_played : NowPlayed;
  use_filename : string;                          (* addon.getSetting('use_filename') *)
  parse_filename : string -> option (string * string * string);
  normalize_showname : string -> string;
  get_languages : list string -> list string;
  convert_language : string -> string;            (* xbmc.convertLanguage(_, ISO_639_1) *)
  get_ui_string : Z -> string;
  icon : string;
  select_answer : Z;                              (* what dialog.select returns *)
  search_episode : string -> list string -> exn + SearchResult;
  get_episode : string -> list string -> exn + SearchResult;
  download_result : string -> string -> string -> option exn
}.

(** [temp = os.path.join(profile, 'temp')] *)
Definition temp (e : Env) : string := path_join (profile e) "temp".

(** [VIDEOFILES] *)
Definition VIDEOFILES : list string := [".avi"; ".mkv"; ".mp4"; ".ts"; ".m2ts"; ".mov"].

(** [xbmcgui.Dialog.notification]'s default [time] in ms (its default [sound] is [True]) *)
Definition notification_default_time : Z := 5000.

(** The state: the host calls so far, whether the staging directory exists,
    and the paths of the files on disk. *)
Record St := mkSt {
  trace : list Event;
  temp_exists : bool;
  files : list string
}.

(** ** The monad: reader of [Env], state [St], Python exceptions *)

Definition M (A : Type) : Type := Env -> St -> (exn + A) * St.

Definition ret {A} (a : A) : M A := fun _ s => (inr a, s).
Definition bind {A B} (m : M A) (f : A -> M B) : M B :=
  fun e s => match m e s with
             | (inl x, s') => (inl x, s')
             | (inr a, s') => f a e s'
             end.
Definition raise {A} (x : exn) : M A := fun _ s => (inl x, s).
Definition ask : M Env := fun e s => (inr e, s).
Definition modify (f : St -> St) : M unit := fun _ s => (inr tt, f s).

Notation "x <- m ;; k" := (bind m (fun x => k))
  (at level 61, m at next level, right associativity).
Notation "m ;;; k" := (bind m (fun _ => k))
  (at level 61, right associativity).

(** [try: m except ...: handler else: k]: [handler] says which exceptions
    are caught (and what runs then); an exception of [k] is not caught. *)
Definition try_else {A B} (m : M A) (handler : exn -> option (M B)) (k : A -> M B) : M B :=
  fun e s => match m e s with
             | (inl x, s') => match handler x with
                              | Some h => h e s'
                              | None => (inl x, s')
                              end
             | (inr a, s') => k a e s'
             end.

Definition emit (ev : Event) : M unit :=
  modify (fun s => mkSt (trace s ++ [ev])%list (temp_exists s) (files s)).

Definition getitem (params : list (string * string)) (key : string) : M string :=
  match dict_get params key with Some v => ret v | None => raise KeyError end.

Definition notification (heading message icon : string) (time : Z) (sound : bool) : M unit :=
  emit (Notification heading message icon time sound).

(** ** The host's file system ([xbmcvfs], [shutil]) *)

Definition under (dir p : string) : bool := startswith p (dir ++ "/").

Definition vfs_exists (p : string) : M bool :=
  fun e s => (inr (if String.eqb p (temp e) then temp_exists s
                   else existsb (String.eqb p) (files s)), s).

(** [shutil.rmtree(p)] *)
Definition rmtree (p : string) : M unit :=
  emit (RmTree p) ;;;
  fun e s => (inr tt, mkSt (trace s)
                          (if String.eqb p (temp e) then false else temp_exists s)
                          (filter (fun f => negb (under p f)) (files s))).

(** [xbmcvfs.mkdirs(p)] *)
Definition mkdirs (p : string) : M unit :=
  emit (MkDirs p) ;;;
  fun e s => (inr tt, mkSt (trace s)
                          (if String.eqb p (temp e) then true else temp_exists s)
                          (files s)).

Definition write_file (p : string) : M unit :=
  modify (fun s => mkSt (trace s) (temp_exists s)
                        (if existsb (String.eqb p) (files s) then files s
                         else (files s ++ [p])%list)).

(** ** The provider ([parser]) *)

Definition parser_search_episode (query : string) (languages : list string) : M SearchResult :=
  emit (CallSearchEpisode query languages) ;;;
  e <- ask ;;
  match search_episode e query languages with
  | inl x => raise x
  | inr r => ret r
  end.

Definition parser_get_episode (lnk : string) (languages : list string) : M SearchResult :=
  emit (CallGetEpisode lnk languages) ;;;
  e <- ask ;;
  match get_episode e lnk languages with
  | inl x => raise x
  | inr r => ret r
  end.

(** Modelled from the spec: [parser.download_subs(link, referrer, path)]
    (addic7ed/parser.py, not in the sources) either signals a condition or
    fetches the subtitle bytes into [path]; when it signals one, no file is
    written. *)
Definition parser_download_subs (lnk referrer path : string) : M unit :=
  emit (CallDownloadSubs lnk referrer path) ;;;
  e <- ask ;;
  match download_result e lnk referrer path with
  | Some x => raise x
  | None => write_file path
  end.

(** ** [display_subs] *)

(** The [ListItem] made for [item]; [sync] is set when [release_re] matches
    the file name and its group, lower-cased, is in the lower-cased
    version. *)
Definition list_item_for (e : Env) (fname : string) (item : SubtitleItem) : ListItem :=
  mkListItem (language item) (version item) (convert_language e (language item))
    (hi item)
    (match release_search fname with
     | Some g => str_contains (lower g) (lower (version item))
     | None => false
     end).

Definition item_url (e : Env) (episode_url fname : string) (item : SubtitleItem) : string :=
  argv0 e ++ "?" ++
  urlencode [("action", "download"); ("link", link item);
             ("ref", episode_url); ("filename", fname)].

Fixpoint display_subs (subs_list : list SubtitleItem) (episode_url fname : string) : M unit :=
  match subs_list with
  | [] => ret tt
  | item :: rest =>
      e <- ask ;;
      emit (AddDirectoryItem (handle e) (item_url e episode_url fname item)
              (list_item_for e fname item) false) ;;;
      display_subs rest episode_url fname
  end.

(** ** [download_subs] *)

(** [filename[:-3]] *)
Definition drop_last3 (s : string) : string :=
  String.substring 0 (String.length s - 3) s.

Definition subspath_of (e : Env) (fname : string) : string :=
  path_join (temp e) (drop_last3 fname ++ "srt").

Definition download_subs (lnk referrer fname : string) : M unit :=
  e <- ask ;;
  ex <- vfs_exists (temp e) ;;
  (if ex then rmtree (temp e) else ret tt) ;;;
  mkdirs (temp e) ;;;
  let subspath := subspath_of e fname in
  try_else (parser_download_subs lnk referrer subspath)
    (fun x => match x with
              | ConnectionError =>
                  Some (notification (get_ui_string e 32002) (get_ui_string e 32005)
                          "error" notification_default_time true)
              | DailyLimitError =>
                  Some (notification (get_ui_string e 32002) (get_ui_string e 32003)
                          "error" 3000 true)
              | _ => None
              end)
    (fun _ =>
       emit (AddDirectoryItem (handle e) subspath
               (mkListItem subspath EmptyString EmptyString false false) false) ;;;
       notification (get_ui_string e 32000) (get_ui_string e 32001) (icon e) 3000 false).

(** ** [extract_episode_data] *)

Definition is_video_ext (ext : string) : bool :=
  existsb (String.eqb (lower ext)) VIDEOFILES.

(** The placeholder file name [\'{0}.{1}x{2}.foo\'.format(showname.encode(\'utf-8\'),
    season, episode)]: the showname is already a byte string here, and
    formatting a [bytes] object gives its [repr]. *)
Definition placeholder_filename (sh se ep : string) : string :=
  bytes_repr sh ++ "." ++ se ++ "x" ++ ep ++ ".foo".

Definition extract_episode_data : M EpisodeData :=
  e <- ask ;;
  let np := now_played e in
  let fname := basename (unquote (np_file np)) in
  if String.eqb (use_filename e) "true" || is_empty (np_showtitle np) then
    match parse_filename e fname with
    | Some (sh, se, ep) => ret (mkEpisodeData sh se ep fname)
    | None =>
        let fname := np_label np in
        match parse_filename e fname with
        | Some (sh, se, ep) => ret (mkEpisodeData sh se ep fname)
        | None =>
            notification (get_ui_string e 32002) (get_ui_string e 32006) "error" 3000 true ;;;
            raise ParseError
        end
    end
  else
    let sh := np_showtitle np in
    let se := zfill (str_nat (np_season np)) 2 in
    let ep := zfill (str_nat (np_episode np)) 2 in
    let fname := if is_video_ext (snd (splitext fname)) then fname
                 else placeholder_filename sh se ep in
    ret (mkEpisodeData sh se ep fname).

(** ** [search_subs] *)

(** [results[i]] for [i >= 0] *)
Definition list_index {A} (l : list A) (i : Z) : M A :=
  match nth_error l (Z.to_nat i) with Some a => ret a | None => raise IndexError end.

Definition select (heading : string) (options : list string) : M Z :=
  emit (Select heading options) ;;;
  e <- ask ;;
  ret (select_answer e).

(** The connection-error notification of [search_subs] *)
Definition notify_connection_error : M unit :=
  e <- ask ;;
  notification (get_ui_string e 32002) (get_ui_string e 32005) "error"
    notification_default_time true.

(** [results.subtitles], [results.episode_url]: a [list] has neither. *)
Definition episode_fields (r : SearchResult) : M (list SubtitleItem * string) :=
  match r with
  | Episode subs url => ret (subs, url)
  | Candidates _ => raise AttributeError
  end.

(** The block [if i >= 0: ... else: ...] after [dialog.select]: [None]
    where the source returns early. *)
Definition choose_candidate (cands : list EpisodeCandidate) (i : Z) (languages : list string)
  : M (option SearchResult) :=
  if (0 <=? i)%Z then
    cand <- list_index cands i ;;
    try_else (parser_get_episode (cand_link cand) languages)
      (fun x => match x with
                | ConnectionError => Some (notify_connection_error ;;; ret None)
                | SubsSearchError => Some (ret None)
                | _ => None
                end)
      (fun r => ret (Some r))
  else ret None.

(** The block [if isinstance(results, list): ...] *)
Definition choose_episode (results : SearchResult) (languages : list string)
  : M (option SearchResult) :=
  match results with
  | Candidates cands =>
      e <- ask ;;
      i <- select (get_ui_string e 32008) (map title cands) ;;
      choose_candidate cands i languages
  | Episode _ _ => ret (Some results)
  end.

(** [display_subs(results.subtitles, results.episode_url, episode_data.filename)],
    unless the source returned early *)
Definition show_episode (r : option SearchResult) (episode_data : EpisodeData) : M unit :=
  match r with
  | None => ret tt
  | Some res =>
      f <- episode_fields res ;;
      display_subs (fst f) (snd f) (filename episode_data)
  end.

(** The [else:] block after [parser.search_episode] succeeded *)
Definition present_results (results : SearchResult) (languages : list string)
  (episode_data : EpisodeData) : M unit :=
  r <- choose_episode results languages ;;
  show_episode r episode_data.

(** The block [if query: ...] *)
Definition search_query (query : string) (languages : list string)
  (episode_data : EpisodeData) : M unit :=
  if is_empty query then ret tt
  else
    try_else (parser_search_episode query languages)
      (fun x => match x with
                | ConnectionError => Some notify_connection_error
                | SubsSearchError => Some (ret tt)
                | _ => None
                end)
      (fun results => present_results results languages episode_data).

Definition search_subs (params : list (string * string)) : M unit :=
  e <- ask ;;
  langs <- getitem params "languages" ;;
  let languages := get_languages e (split_on ","%char (unquote_plus langs)) in
  try_else extract_episode_data
    (fun x => if exn_eqb x ParseError then Some (ret tt) else None)
    (fun episode_data =>
       action <- getitem params "action" ;;
       query <- (if String.eqb action "search" then
                   ret (normalize_showname e (showname episode_data) ++ " " ++
                        season episode_data ++ "x" ++ episode_data.(episode))
                 else getitem params "searchstring") ;;
       search_query query languages episode_data).

(** ** [router] *)

Definition end_of_directory : M unit :=
  e <- ask ;; emit (EndOfDirectory (handle e)).

Definition router (paramstring : string) : M unit :=
  let params := parse_qsl paramstring in
  action <- getitem params "action" ;;
  (if String.eqb action "search" || String.eqb action "manualsearch" then
     search_subs params
   else if String.eqb action "download" then
     lnk <- getitem params "link" ;;
     ref <- getitem params "ref" ;;
     fname <- getitem params "filename" ;;
     download_subs lnk ref (unquote_plus fname)
   else ret tt) ;;;
  end_of_directory.

(** ** Sample worlds *)

(** A toy [parse_filename]: ["<show>.S<ss>E<ee>..."] is not needed; any file
    name with a ['x'] in it is accepted as show ["Show"], 01x02. *)
Definition sample_parse (f : string) : option (string * string * string) :=
  if str_has "x"%char f then Some ("Show", "01", "02") else None.

Definition sample_item : SubtitleItem :=
  mkSubtitleItem "English" "LOL" false "/updated/1/123/0".

Definition sample_now_played : NowPlayed :=
  mkNowPlayed "smb://nas/tv/Show.S01E02.strm" "Show" 1 2 "Show 1x02".

Definition sample_env
  (np : NowPlayed) (setting : string)
  (search : string -> list string -> exn + SearchResult)
  (sel : Z) (dl : option exn) : Env :=
  mkEnv "plugin://service.subtitles.rvm.addic7ed/" 1 "/home/kodi/profile" np setting
    sample_parse (fun s => s) (fun l => l) (fun _ => "en")
    (fun n => String.append "ui" (str_nat (Z.to_nat n))) "icon.png" sel search
    (fun _ _ => inr (Episode [sample_item] "/show/1/1/2"))
    (fun _ _ _ => dl).

Definition empty_st : St := mkSt [] false [].

Definition add_events (s : St) (evs : list Event) : St :=
  mkSt (trace s ++ evs)%list (temp_exists s) (files s).

(** ** Auxiliary definitions used by the properties *)

Definition prefers_filename (e : Env) : bool :=
  String.eqb (use_filename e) "true" || is_empty (np_showtitle (now_played e)).

Definition played_basename (e : Env) : string :=
  basename (unquote (np_file (now_played e))).

Definition plain_char (c : ascii) : bool :=
  let n := nat_of_ascii c in
  (32 <=? n)%nat && (n <? 127)%nat
  && negb (Ascii.eqb c squote) && negb (Ascii.eqb c backslash).

Fixpoint plain_bytes (s : string) : bool :=
  match s with
  | EmptyString => true
  | String c r => plain_char c && plain_bytes r
  end.

Definition env_search (np : NowPlayed) (setting : string) : Env :=
  sample_env np setting (fun _ _ => inr (Episode [sample_item] "/show/1/1/2")) (-1) None.

(** No show title and a file name and label that [sample_parse] rejects *)
Definition np_unparsable : NowPlayed :=
  mkNowPlayed "smb://nas/tv/Show.S01E02.mkv" EmptyString 0 0 "Show S01E02".

(** No show title, a file name that [sample_parse] rejects, a label it
    accepts *)
Definition np_label_only : NowPlayed :=
  mkNowPlayed "smb://nas/tv/Show.S01E02.mkv" EmptyString 0 0 "Show 1x02".

(** The staging directory removed when it exists *)
Definition clear_temp (e : Env) (s : St) : St :=
  if temp_exists s then
    mkSt (trace s ++ [RmTree (temp e)])%list false
         (filter (fun f => negb (under (temp e) f)) (files s))
  else s.

Definition add_file (p : string) (fs : list string) : list string :=
  if existsb (String.eqb p) fs then fs else (fs ++ [p])%list.

Definition env_dl (r : option exn) : Env :=
  sample_env sample_now_played "false" (fun _ _ => inr (Episode [] "/show/1/1/2")) (-1) r.

(** A consistent file system: no file lies under the staging directory
    while the directory does not exist. *)
Definition fs_ok (e : Env) (s : St) : Prop :=
  temp_exists s = false -> forall f, In f (files s) -> under (temp e) f = false.

Definition not_under (t : string) (f : string) : bool := negb (under t f).

Definition download_succeeds (e : Env) (lnk referrer p : string) : bool :=
  match download_result e lnk referrer p with None => true | Some _ => false end.

Definition display_event (e : Env) (episode_url fname : string) (item : SubtitleItem) : Event :=
  AddDirectoryItem (handle e) (item_url e episode_url fname item)
    (list_item_for e fname item) false.

Definition not_eod (ev : Event) : Prop :=
  match ev with EndOfDirectory _ => False | _ => True end.

(** [m] only appends events satisfying [P] to the trace *)
Definition extends_with (P : Event -> Prop) {A} (m : M A) : Prop :=
  forall e s, exists evs, trace (snd (m e s)) = (trace s ++ evs)%list /\ Forall P evs.

Definition sample_candidates : list EpisodeCandidate :=
  [mkEpisodeCandidate "Show - 1x02 - Pilot" "/show/1/1/2";
   mkEpisodeCandidate "Show (US) - 1x02 - Pilot" "/show/2/1/2"].

(** The release tag as the claim words it: the text after the last ['-'] up
    to the first ['.'] or ['['] after it. *)
Fixpoint upto_dot_or_bracket (s : string) : option string :=
  match s with
  | EmptyString => None
  | String c r =>
      if Ascii.eqb c "."%char || Ascii.eqb c "["%char then Some EmptyString
      else option_map (String c) (upto_dot_or_bracket r)
  end.

Definition claimed_release_tag (fname : string) : option string :=
  match rfind "-"%char fname with
  | None => None
  | Some i => upto_dot_or_bracket (String.substring (S i) (String.length fname - S i) fname)
  end.

Definition sync_item (v : string) : SubtitleItem :=
  mkSubtitleItem "English" v false "/updated/1/123/0".

(** The provider answers and host answers the flows handle: a search answer
    that is a result, a connection failure or "no subtitles"; the same for a
    chosen candidate, whose answer is one episode; a selection index that is
    -1 or a valid index; a download that succeeds, fails to connect or hits
    the daily limit. *)
Definition search_answer_handled (r : exn + SearchResult) : bool :=
  match r with
  | inl ConnectionError | inl SubsSearchError | inr _ => true
  | _ => false
  end.

Definition episode_answer_handled (r : exn + SearchResult) : bool :=
  match r with
  | inl ConnectionError | inl SubsSearchError | inr (Episode _ _) => true
  | _ => false
  end.

Definition download_answer_handled (r : option exn) : bool :=
  match r with
  | None | Some ConnectionError | Some DailyLimitError => true
  | _ => false
  end.

Record world_ok (e : Env) : Prop := {
  wo_search : forall q l, search_answer_handled (search_episode e q l) = true;
  wo_get : forall q l, episode_answer_handled (get_episode e q l) = true;
  wo_select : forall q l cands, search_episode e q l = inr (Candidates cands) ->
                                (select_answer e < Z.of_nat (length cands))%Z;
  wo_download : forall l r p, download_answer_handled (download_result e l r p) = true
}.

(** A parameter string with its action and the action's keys, each with a
    non-empty value (the only values [parse_qsl] keeps). *)
Definition params_ok (params : list (string * string)) : Prop :=
  exists a, dict_get params "action" = Some a /\
  (((a = "search" \/ a = "manualsearch") /\ dict_get params "languages" <> None /\
    (a = "manualsearch" -> dict_get params "searchstring" <> None))
   \/ (a = "download" /\ dict_get params "link" <> None /\
       dict_get params "ref" <> None /\ dict_get params "filename" <> None)).

Definition env_search_daily_limit : Env :=
  sample_env sample_now_played "false" (fun _ _ => inl DailyLimitError) (-1) None.


(** ** Auxiliary definitions for the further properties *)

(** One field [quote_plus(k) + '=' + quote_plus(v)] of [urlencode] *)
Definition qsl_field (kv : string * string) : string :=
  let '(k, v) := kv in quote_plus k ++ "=" ++ quote_plus v.

(** What [parse_qsl] makes of one ['&']-separated field *)
Definition qsl_pair (nv : string) : list (string * string) :=
  if is_empty nv then []
  else match split_once "="%char nv with
       | None => []
       | Some (n, v) => if is_empty v then [] else [(unquote_plus n, unquote_plus v)]
       end.

(** The dict [display_subs] encodes into a download entry's URL *)
Definition download_params (lnk episode_url fname : string) : list (string * string) :=
  [("action", "download"); ("link", lnk); ("ref", episode_url); ("filename", fname)].

(** The host calls the search flow may make *)
Definition search_event (ev : Event) : bool :=
  match ev with
  | AddDirectoryItem _ _ _ _ | Notification _ _ _ _ _ | Select _ _
  | CallSearchEpisode _ _ | CallGetEpisode _ _ => true
  | _ => false
  end.

(** [m] only appends search-flow host calls and leaves the file system as it is *)
Definition confined {A} (m : M A) : Prop :=
  forall e s, exists evs, snd (m e s) = add_events s evs /\ forallb search_event evs = true.

(** [str(n).zfill(2)] as its result reads: one leading zero for a one-digit number *)
Definition pad2 (n : nat) : string :=
  if (n <? 10)%nat then String "0"%char (str_nat n) else str_nat n.

(** The provider answers every search with two candidates; [sel] is the selection *)
Definition env_candidates (sel : Z) : Env :=
  sample_env sample_now_played "false" (fun _ _ => inr (Candidates sample_candidates)) sel None.

(** A library item played from a [.mkv] file *)
Definition np_library_mkv : NowPlayed :=
  mkNowPlayed "smb://nas/tv/Show.S01E12.mkv" "Show" 1 12 "Show 1x12".

Definition sample_episode_data : EpisodeData := mkEpisodeData "Show" "01" "02" "Show.S01E02.mkv".


(** * Properties *)

Example release_search_ex1 :
  release_search "Show.Name.S01E02.720p.HDTV.x264-DIMENSION.mkv" = Some "DIMENSION".
Proof. reflexivity. Qed.
Example release_search_ex2 :
  release_search "Show-S01E01-LOL.mkv" = Some "S01E01-LOL".
Proof. reflexivity. Qed.
Example release_search_ex3 :
  release_search "show.s01e01-lol[eztv].mkv" = Some "lol".
Proof. reflexivity. Qed.

Example splitext_ex1 : splitext "/a.b/c.d.mkv" = ("/a.b/c.d", ".mkv").
Proof. reflexivity. Qed.
Example splitext_ex2 : splitext "/a.b/.bashrc" = ("/a.b/.bashrc", EmptyString).
Proof. reflexivity. Qed.
Example basename_ex : basename "smb://nas/tv/Show.S01E01.mkv" = "Show.S01E01.mkv".
Proof. reflexivity. Qed.
Example path_join_ex : path_join "/p/temp" "x.srt" = "/p/temp/x.srt".
Proof. reflexivity. Qed.
Example parse_qsl_ex :
  parse_qsl "action=manualsearch&languages=English%2CFrench&searchstring=" =
  [("action", "manualsearch"); ("languages", "English,French")].
Proof. reflexivity. Qed.
Example bytes_repr_ex : bytes_repr "Show" = "b'Show'".
Proof. reflexivity. Qed.

(** ** Unfolding the monad *)

Lemma bind_inr {A B} (m : M A) (f : A -> M B) e s a s' :
  m e s = (inr a, s') -> bind m f e s = f a e s'.
Proof. intros H. unfold bind. rewrite H. reflexivity. Qed.

Lemma bind_inl {A B} (m : M A) (f : A -> M B) e s x s' :
  m e s = (inl x, s') -> bind m f e s = (inl x, s').
Proof. intros H. unfold bind. rewrite H. reflexivity. Qed.

Lemma emit_eq ev e s :
  emit ev e s = (inr tt, mkSt (trace s ++ [ev])%list (temp_exists s) (files s)).
Proof. reflexivity. Qed.

Lemma extract_episode_data_parse e s :
  prefers_filename e = true ->
  extract_episode_data e s =
  match parse_filename e (played_basename e) with
  | Some (sh, se, ep) => (inr (mkEpisodeData sh se ep (played_basename e)), s)
  | None =>
      match parse_filename e (np_label (now_played e)) with
      | Some (sh, se, ep) => (inr (mkEpisodeData sh se ep (np_label (now_played e))), s)
      | None =>
          (inl ParseError,
           add_events s [Notification (get_ui_string e 32002) (get_ui_string e 32006)
                           "error" 3000 true])
      end
  end.
Proof.
  intros H. unfold prefers_filename, played_basename in *.
  cbv [extract_episode_data bind ask ret]. rewrite H.
  destruct (parse_filename e _) as [[[sh se] ep] |]; [reflexivity |].
  destruct (parse_filename e _) as [[[sh se] ep] |]; reflexivity.
Qed.

Lemma extract_episode_data_library e s :
  prefers_filename e = false ->
  extract_episode_data e s =
  (inr (let np := now_played e in
        let se := zfill (str_nat (np_season np)) 2 in
        let ep := zfill (str_nat (np_episode np)) 2 in
        mkEpisodeData (np_showtitle np) se ep
          (if is_video_ext (snd (splitext (played_basename e))) then played_basename e
           else placeholder_filename (np_showtitle np) se ep)), s).
Proof.
  intros H. unfold prefers_filename, played_basename in *.
  cbv [extract_episode_data bind ask ret]. rewrite H. reflexivity.
Qed.

Lemma plain_bytes_no_squote s : plain_bytes s = true -> str_has squote s = false.
Proof.
  induction s as [| c r IH]; simpl; [reflexivity |].
  unfold plain_char. intros H.
  destruct (Ascii.eqb squote c) eqn:E.
  - apply Ascii.eqb_eq in E. subst. vm_compute in H. discriminate.
  - change ((Ascii.eqb squote c || str_has squote r) = false). rewrite E.
    apply IH. destruct (plain_bytes r); [reflexivity |].
    rewrite andb_false_r in H. discriminate.
Qed.

Lemma bytes_repr_body_plain s : plain_bytes s = true ->
  bytes_repr_body squote s = s ++ String squote EmptyString.
Proof.
  induction s as [| c r IH]; [reflexivity |].
  cbn [plain_bytes bytes_repr_body]. unfold plain_char. intros H.
  apply andb_prop in H as [Hc Hr].
  apply andb_prop in Hc as [Hc Hb]. apply andb_prop in Hc as [Hc Hq].
  apply andb_prop in Hc as [H1 H2].
  apply negb_true_iff in Hq, Hb.
  rewrite Hq, Hb. cbn [orb].
  apply Nat.leb_le in H1. apply Nat.ltb_lt in H2.
  destruct (nat_of_ascii c =? 9)%nat eqn:E9; [apply Nat.eqb_eq in E9; lia |].
  destruct (nat_of_ascii c =? 10)%nat eqn:E10; [apply Nat.eqb_eq in E10; lia |].
  destruct (nat_of_ascii c =? 13)%nat eqn:E13; [apply Nat.eqb_eq in E13; lia |].
  destruct (nat_of_ascii c <? 32)%nat eqn:E32; [apply Nat.ltb_lt in E32; lia |].
  destruct (127 <=? nat_of_ascii c)%nat eqn:E127; [apply Nat.leb_le in E127; lia |].
  cbn [orb]. rewrite IH by exact Hr. reflexivity.
Qed.

Lemma bytes_repr_plain s : plain_bytes s = true ->
  bytes_repr s = "b'" ++ s ++ "'".
Proof.
  intros H. unfold bytes_repr. rewrite (plain_bytes_no_squote s H). simpl.
  rewrite (bytes_repr_body_plain s H). reflexivity.
Qed.

Lemma append_assoc_str (a b c : string) : (a ++ b) ++ c = a ++ (b ++ c).
Proof. induction a as [| x a IH]; simpl; [reflexivity | now rewrite IH]. Qed.

Lemma string_length_append (a b : string) :
  String.length (a ++ b) = (String.length a + String.length b)%nat.
Proof. induction a as [| c a IH]; simpl; [reflexivity | now rewrite IH]. Qed.

(** ** C6: identity resolution from the file name, then the label *)

(** C6: when the 'use_filename' setting is "true" or the library show title
    is empty, [extract_episode_data] returns the parse of the played file's
    base name if it succeeds, else the parse of the display label if it
    succeeds, else it shows one notification and raises [ParseError]; in that
    last case [search_subs] ends without any provider call: it only adds that
    notification (or fails with [KeyError] before it when the 'languages'
    parameter is missing). *)
Theorem extract_episode_data_fallback (e : Env) (s : St) :
  (use_filename e = "true" \/ np_showtitle (now_played e) = EmptyString) ->
  extract_episode_data e s =
  match parse_filename e (played_basename e) with
  | Some (sh, se, ep) => (inr (mkEpisodeData sh se ep (played_basename e)), s)
  | None =>
      match parse_filename e (np_label (now_played e)) with
      | Some (sh, se, ep) => (inr (mkEpisodeData sh se ep (np_label (now_played e))), s)
      | None =>
          (inl ParseError,
           add_events s [Notification (get_ui_string e 32002) (get_ui_string e 32006)
                           "error" 3000 true])
      end
  end
  /\
  (parse_filename e (played_basename e) = None ->
   parse_filename e (np_label (now_played e)) = None ->
   forall params,
   search_subs params e s =
   match dict_get params "languages" with
   | Some _ =>
       (inr tt, add_events s [Notification (get_ui_string e 32002)
                                (get_ui_string e 32006) "error" 3000 true])
   | None => (inl KeyError, s)
   end).
Proof.
  intros Hc.
  assert (Hp : prefers_filename e = true).
  { unfold prefers_filename. destruct Hc as [-> | ->]; [reflexivity | apply orb_true_r]. }
  split; [apply extract_episode_data_parse; exact Hp |].
  intros H1 H2 params.
  pose proof (extract_episode_data_parse e s Hp) as Hx.
  rewrite H1, H2 in Hx.
  unfold search_subs, getitem.
  destruct (dict_get params "languages") as [lg |]; [| reflexivity].
  cbv [bind ask ret try_else]. rewrite Hx. reflexivity.
Qed.

Lemma extract_episode_data_fallback_witness :
  np_showtitle (now_played (env_search np_unparsable "false")) = EmptyString /\
  let e := env_search np_unparsable "false" in
  search_subs [("action", "search"); ("languages", "English")] e empty_st =
  (inr tt, add_events empty_st [Notification "ui32002" "ui32006" "error" 3000 true]).
Proof.
  split; [reflexivity |].
  simpl.
  destruct (extract_episode_data_fallback (env_search np_unparsable "false") empty_st
              (or_intror eq_refl)) as [_ H].
  exact (H eq_refl eq_refl [("action", "search"); ("languages", "English")]).
Defined.

(** ** C10: after the label fallback the file name is the label *)

(** C10: when the first parse (of the played file's base name) fails and the
    second (of the display label) succeeds, the [filename] of the returned
    [EpisodeData] is the display label itself, and it is this label that
    [search_subs] hands to [display_subs], which matches release tags and
    builds the download URLs against it. *)
Theorem label_fallback_filename (e : Env) (s : St) (sh se ep : string) :
  (use_filename e = "true" \/ np_showtitle (now_played e) = EmptyString) ->
  parse_filename e (played_basename e) = None ->
  parse_filename e (np_label (now_played e)) = Some (sh, se, ep) ->
  extract_episode_data e s = (inr (mkEpisodeData sh se ep (np_label (now_played e))), s)
  /\ forall query languages,
     try_else extract_episode_data
       (fun x => if exn_eqb x ParseError then Some (ret tt) else None)
       (fun episode_data => search_query query languages episode_data) e s
     = search_query query languages (mkEpisodeData sh se ep (np_label (now_played e))) e s.
Proof.
  intros Hc H1 H2.
  assert (Hp : prefers_filename e = true).
  { unfold prefers_filename. destruct Hc as [-> | ->]; [reflexivity | apply orb_true_r]. }
  assert (Hx : extract_episode_data e s =
               (inr (mkEpisodeData sh se ep (np_label (now_played e))), s)).
  { rewrite (extract_episode_data_parse e s Hp), H1, H2. reflexivity. }
  split; [exact Hx |].
  intros query languages. unfold try_else. rewrite Hx. reflexivity.
Qed.

Lemma label_fallback_filename_witness :
  extract_episode_data (env_search np_label_only "true") empty_st =
  (inr (mkEpisodeData "Show" "01" "02" "Show 1x02"), empty_st).
Proof.
  exact (proj1 (label_fallback_filename (env_search np_label_only "true") empty_st
                  "Show" "01" "02" (or_introl eq_refl) eq_refl eq_refl)).
Defined.

(** ** C3: the placeholder file name for library items *)

(** C3 (the code diverges from the claim): for a library item ('use_filename'
    not "true", show title non-empty) whose file has no video extension, the
    placeholder file name is built from [showname.encode('utf-8')], a
    [bytes] object, which Python 3 formats as its [repr]: for a show title
    of printable ASCII without quote or backslash the name is
    ["b'<showname>'.<season>x<episode>.foo"], never the
    ["<showname>.<season>x<episode>.foo"] the claim states. *)
Theorem library_placeholder_filename (e : Env) (s : St) :
  prefers_filename e = false ->
  is_video_ext (snd (splitext (played_basename e))) = false ->
  plain_bytes (np_showtitle (now_played e)) = true ->
  exists ed,
    extract_episode_data e s = (inr ed, s) /\
    showname ed = np_showtitle (now_played e) /\
    season ed = zfill (str_nat (np_season (now_played e))) 2 /\
    episode ed = zfill (str_nat (np_episode (now_played e))) 2 /\
    filename ed = "b'" ++ showname ed ++ "'." ++ season ed ++ "x" ++ episode ed ++ ".foo" /\
    filename ed <> showname ed ++ "." ++ season ed ++ "x" ++ episode ed ++ ".foo".
Proof.
  intros Hp Hv Hb.
  rewrite (extract_episode_data_library e s Hp), Hv.
  eexists. split; [reflexivity |].
  cbn [showname season episode filename].
  unfold placeholder_filename. rewrite (bytes_repr_plain _ Hb).
  repeat split.
  - rewrite !append_assoc_str. reflexivity.
  - intros Heq. apply (f_equal String.length) in Heq.
    rewrite !string_length_append in Heq. cbn in Heq. lia.
Qed.

Lemma library_placeholder_filename_witness :
  exists ed,
    extract_episode_data (env_search sample_now_played "false") empty_st = (inr ed, empty_st) /\
    filename ed = "b'Show'.01x02.foo".
Proof.
  destruct (library_placeholder_filename (env_search sample_now_played "false") empty_st
              eq_refl eq_refl eq_refl) as [ed [H [H1 [H2 [H3 [H4 _]]]]]].
  exists ed. split; [exact H |]. rewrite H4, H1, H2, H3. reflexivity.
Defined.

Lemma download_subs_eq lnk referrer fname e s :
  download_subs lnk referrer fname e s =
  let p := subspath_of e fname in
  let s1 := clear_temp e s in
  let s2 := mkSt (trace s1 ++ [MkDirs (temp e); CallDownloadSubs lnk referrer p])%list
                 true (files s1) in
  match download_result e lnk referrer p with
  | None =>
      (inr tt, mkSt (trace s2 ++
                     [AddDirectoryItem (handle e) p
                        (mkListItem p EmptyString EmptyString false false) false;
                      Notification (get_ui_string e 32000) (get_ui_string e 32001)
                        (icon e) 3000 false])%list
                    true (add_file p (files s1)))
  | Some ConnectionError =>
      (inr tt, add_events s2 [Notification (get_ui_string e 32002)
                                (get_ui_string e 32005) "error"
                                notification_default_time true])
  | Some DailyLimitError =>
      (inr tt, add_events s2 [Notification (get_ui_string e 32002)
                                (get_ui_string e 32003) "error" 3000 true])
  | Some x => (inl x, s2)
  end.
Proof.
  unfold download_subs, clear_temp, add_events.
  cbv [bind ask ret raise vfs_exists rmtree mkdirs emit modify try_else
       parser_download_subs write_file notification add_file].
  rewrite String.eqb_refl.
  destruct (temp_exists s);
    destruct (download_result e lnk referrer (subspath_of e fname)) as [[] |];
    cbn [trace temp_exists files];
    rewrite <- ?app_assoc; cbn [app];
    reflexivity.
Qed.

(** ** C4: the staging path *)

(** C4 (the code diverges from the claim): the staging path is
    [os.path.join(temp, filename[:-3] + 'srt')], which replaces the
    extension by [.srt] only when it has three characters: for the
    recognised video extensions [.ts] and [.m2ts] the staged file is
    [Show.S01E02srt] and [Show.S01E02.msrt], and a successful download stages
    exactly that one file. *)
Theorem download_staging_name_by_slice :
  let e := env_dl None in
  subspath_of e "Show.S01E02.mkv" = "/home/kodi/profile/temp/Show.S01E02.srt" /\
  subspath_of e "Show.S01E02.ts" = "/home/kodi/profile/temp/Show.S01E02srt" /\
  subspath_of e "Show.S01E02.m2ts" = "/home/kodi/profile/temp/Show.S01E02.msrt" /\
  files (snd (download_subs "/updated/1/123/0" "/show/1/1/2" "Show.S01E02.ts" e empty_st))
  = ["/home/kodi/profile/temp/Show.S01E02srt"] /\
  subspath_of e "Show.S01E02.ts"
  <> path_join (temp e) (fst (splitext "Show.S01E02.ts") ++ ".srt").
Proof.
  repeat split; try (vm_compute; reflexivity).
  intros H. vm_compute in H. discriminate H.
Qed.

(** ** C5: the outcomes of a download *)

(** C5 (counterexample): the daily-limit notification is shown for 3000 ms,
    the connectivity one for the host's default 5000 ms: its display
    duration is shorter, not longer. *)
Lemma download_daily_limit_notification_shorter :
  trace (snd (download_subs "/updated/1/123/0" "/show/1/1/2" "Show.S01E02.mkv"
                (env_dl (Some ConnectionError)) empty_st)) =
  [MkDirs "/home/kodi/profile/temp";
   CallDownloadSubs "/updated/1/123/0" "/show/1/1/2" "/home/kodi/profile/temp/Show.S01E02.srt";
   Notification "ui32002" "ui32005" "error" 5000 true] /\
  trace (snd (download_subs "/updated/1/123/0" "/show/1/1/2" "Show.S01E02.mkv"
                (env_dl (Some DailyLimitError)) empty_st)) =
  [MkDirs "/home/kodi/profile/temp";
   CallDownloadSubs "/updated/1/123/0" "/show/1/1/2" "/home/kodi/profile/temp/Show.S01E02.srt";
   Notification "ui32002" "ui32003" "error" 3000 true] /\
  (3000 < 5000)%Z.
Proof. split; [vm_compute; reflexivity | split; [vm_compute; reflexivity | lia]]. Qed.

(** C5 (amended): after the staging directory is recreated and the provider
    called, a connection failure adds exactly one notification (message
    32005, the default 5000 ms) and nothing else; the daily-limit error adds
    exactly one notification with its own message (32003) and an explicit
    3000 ms duration, and nothing else; neither writes a file nor emits a
    result entry. Success adds exactly one result entry pointing at the
    staged file, then the success notification (32000/32001, 3000 ms,
    silent), and the file is on disk. *)
Theorem download_subs_outcomes lnk referrer fname e s :
  let p := subspath_of e fname in
  let pre := ((if temp_exists s then [RmTree (temp e)] else []) ++
              [MkDirs (temp e); CallDownloadSubs lnk referrer p])%list in
  let '(res, s') := download_subs lnk referrer fname e s in
  match download_result e lnk referrer p with
  | None =>
      res = inr tt /\
      trace s' = (trace s ++ pre ++
                  [AddDirectoryItem (handle e) p
                     (mkListItem p EmptyString EmptyString false false) false;
                   Notification (get_ui_string e 32000) (get_ui_string e 32001)
                     (icon e) 3000 false])%list /\
      files s' = add_file p (files (clear_temp e s))
  | Some ConnectionError =>
      res = inr tt /\
      trace s' = (trace s ++ pre ++
                  [Notification (get_ui_string e 32002) (get_ui_string e 32005)
                     "error" notification_default_time true])%list /\
      files s' = files (clear_temp e s)
  | Some DailyLimitError =>
      res = inr tt /\
      trace s' = (trace s ++ pre ++
                  [Notification (get_ui_string e 32002) (get_ui_string e 32003)
                     "error" 3000 true])%list /\
      files s' = files (clear_temp e s)
  | Some x => res = inl x
  end.
Proof.
  cbv zeta. rewrite download_subs_eq. cbv zeta.
  unfold clear_temp, add_events.
  destruct (temp_exists s);
    destruct (download_result e lnk referrer (subspath_of e fname)) as [[] |];
    cbn [trace files fst snd]; rewrite <- ?app_assoc; cbn [app];
    repeat split; reflexivity.
Qed.

Lemma filter_not_under_id t l :
  (forall f, In f l -> under t f = false) -> filter (not_under t) l = l.
Proof.
  induction l as [| f l IH]; intros H; simpl; [reflexivity |].
  unfold not_under at 1. rewrite (H f (or_introl eq_refl)). simpl.
  rewrite IH; [reflexivity | intros g Hg; apply H; right; exact Hg].
Qed.

Lemma filter_not_under_all t l f : In f (filter (not_under t) l) -> under t f = false.
Proof.
  intros H. apply filter_In in H as [_ H]. unfold not_under in H.
  destruct (under t f); [discriminate | reflexivity].
Qed.

Lemma clear_temp_files e s :
  fs_ok e s -> files (clear_temp e s) = filter (not_under (temp e)) (files s).
Proof.
  intros Hok. unfold clear_temp. destruct (temp_exists s) eqn:E; [reflexivity |].
  symmetry. apply filter_not_under_id. exact (Hok E).
Qed.

Lemma existsb_eqb_in p l : existsb (String.eqb p) l = true <-> In p l.
Proof.
  rewrite existsb_exists. split.
  - intros [x [Hx Hp]]. apply String.eqb_eq in Hp. subst. exact Hx.
  - intros H. exists p. split; [exact H | apply String.eqb_refl].
Qed.

Lemma filter_add_file t p l :
  filter (not_under t) (add_file p l) =
  if under t p then filter (not_under t) l else add_file p (filter (not_under t) l).
Proof.
  unfold add_file.
  destruct (existsb (String.eqb p) l) eqn:E1.
  - apply existsb_eqb_in in E1.
    destruct (under t p) eqn:Eu; [reflexivity |].
    replace (existsb (String.eqb p) (filter (not_under t) l)) with true; [reflexivity |].
    symmetry. apply existsb_eqb_in. apply filter_In. split; [exact E1 |].
    unfold not_under. rewrite Eu. reflexivity.
  - rewrite filter_app. simpl. unfold not_under at 2.
    destruct (under t p) eqn:Eu; simpl.
    + apply app_nil_r.
    + replace (existsb (String.eqb p) (filter (not_under t) l)) with false; [reflexivity |].
      symmetry. apply not_true_iff_false. intros H.
      apply existsb_eqb_in, filter_In in H as [H _].
      apply existsb_eqb_in in H. rewrite H in E1. discriminate.
Qed.

Lemma add_file_idem p l : add_file p (add_file p l) = add_file p l.
Proof.
  unfold add_file at 2. destruct (existsb (String.eqb p) l) eqn:E.
  - unfold add_file. rewrite !E. reflexivity.
  - unfold add_file. rewrite E.
    replace (existsb (String.eqb p) (l ++ [p])%list) with true; [reflexivity |].
    symmetry. apply existsb_eqb_in. apply in_or_app. right. left. reflexivity.
Qed.

Lemma add_file_fresh p l : ~ In p l -> add_file p l = (l ++ [p])%list.
Proof.
  intros H. unfold add_file.
  destruct (existsb (String.eqb p) l) eqn:E; [| reflexivity].
  apply existsb_eqb_in in E. contradiction.
Qed.

Lemma filter_under_nil t l : (forall f, In f l -> under t f = false) -> filter (under t) l = [].
Proof.
  induction l as [| f l IH]; intros H; simpl; [reflexivity |].
  rewrite (H f (or_introl eq_refl)). apply IH. intros g Hg. apply H. right. exact Hg.
Qed.

Lemma download_subs_fs lnk referrer fname e s :
  temp_exists (snd (download_subs lnk referrer fname e s)) = true /\
  files (snd (download_subs lnk referrer fname e s)) =
  (if download_succeeds e lnk referrer (subspath_of e fname)
   then add_file (subspath_of e fname) (files (clear_temp e s))
   else files (clear_temp e s)).
Proof.
  rewrite download_subs_eq. cbv zeta. unfold download_succeeds.
  destruct (download_result e lnk referrer (subspath_of e fname)) as [[] |];
    split; reflexivity.
Qed.

Lemma download_subs_trace lnk referrer fname e s :
  exists rest,
  trace (snd (download_subs lnk referrer fname e s)) =
  (trace s ++ (if temp_exists s then [RmTree (temp e)] else []) ++
   MkDirs (temp e) :: CallDownloadSubs lnk referrer (subspath_of e fname) :: rest)%list.
Proof.
  rewrite download_subs_eq. cbv zeta. unfold clear_temp, add_events.
  destruct (temp_exists s);
    destruct (download_result e lnk referrer (subspath_of e fname)) as [[] |];
    cbn [snd trace]; rewrite <- ?app_assoc; cbn [app]; eexists; reflexivity.
Qed.

(** C8: a download first removes the staging directory when it exists and
    then creates it, before the provider is asked for the bytes; when it
    ends the directory exists and holds the staged file alone if the
    download succeeded (and the file lies in it), nothing otherwise, whatever
    it held before; and a second identical request leaves the directory and
    the files exactly as the first left them. *)
Theorem download_subs_idempotent lnk referrer fname e s :
  fs_ok e s ->
  let p := subspath_of e fname in
  let s1 := snd (download_subs lnk referrer fname e s) in
  let s2 := snd (download_subs lnk referrer fname e s1) in
  (exists rest,
     trace s1 = (trace s ++ (if temp_exists s then [RmTree (temp e)] else []) ++
                 MkDirs (temp e) :: CallDownloadSubs lnk referrer p :: rest)%list) /\
  temp_exists s1 = true /\
  filter (under (temp e)) (files s1) =
    (if download_succeeds e lnk referrer p && under (temp e) p then [p] else []) /\
  temp_exists s2 = temp_exists s1 /\
  files s2 = files s1.
Proof.
  intros Hok. cbv zeta.
  set (t := temp e). set (p := subspath_of e fname).
  set (G := filter (not_under t) (files s)).
  assert (HG : forall f, In f G -> under t f = false) by apply filter_not_under_all.
  assert (HGid : filter (not_under t) G = G) by (apply filter_not_under_id; exact HG).
  destruct (download_subs_fs lnk referrer fname e s) as [Ht1 Hf1].
  rewrite (clear_temp_files e s Hok) in Hf1. fold t p G in Hf1.
  set (s1 := snd (download_subs lnk referrer fname e s)) in *.
  destruct (download_subs_fs lnk referrer fname e s1) as [Ht2 Hf2].
  assert (Hc1 : files (clear_temp e s1) = filter (not_under t) (files s1))
    by (unfold clear_temp; rewrite Ht1; reflexivity).
  rewrite Hc1 in Hf2. fold p in Hf2.
  split; [apply download_subs_trace |].
  split; [exact Ht1 |].
  split; [| split; [rewrite Ht2, Ht1; reflexivity |]].
  - rewrite Hf1. destruct (download_succeeds e lnk referrer p); simpl.
    + destruct (under t p) eqn:Eu.
      * assert (Hn : ~ In p G) by (intros Hi; rewrite (HG p Hi) in Eu; discriminate).
        rewrite (add_file_fresh p G Hn), filter_app, (filter_under_nil t G HG).
        simpl. rewrite Eu. reflexivity.
      * unfold add_file. destruct (existsb (String.eqb p) G);
          [| rewrite filter_app; simpl; rewrite Eu, app_nil_r];
          apply filter_under_nil; exact HG.
    + apply filter_under_nil. exact HG.
  - rewrite Hf2, Hf1.
    destruct (download_succeeds e lnk referrer p).
    + rewrite filter_add_file, HGid.
      destruct (under t p); [reflexivity | apply add_file_idem].
    + exact HGid.
Qed.

Lemma download_subs_idempotent_witness :
  fs_ok (env_dl None) (mkSt [] true ["/home/kodi/profile/temp/old.srt"]) /\
  filter (under (temp (env_dl None)))
    (files (snd (download_subs "/updated/1/123/0" "/show/1/1/2" "Show.S01E02.mkv"
                   (env_dl None) (mkSt [] true ["/home/kodi/profile/temp/old.srt"])))) =
  ["/home/kodi/profile/temp/Show.S01E02.srt"].
Proof.
  assert (Hok : fs_ok (env_dl None) (mkSt [] true ["/home/kodi/profile/temp/old.srt"]))
    by (intros H; discriminate H).
  split; [exact Hok |].
  destruct (download_subs_idempotent "/updated/1/123/0" "/show/1/1/2" "Show.S01E02.mkv"
              (env_dl None) (mkSt [] true ["/home/kodi/profile/temp/old.srt"]) Hok)
    as [_ [_ [H _]]].
  rewrite H. vm_compute. reflexivity.
Defined.

Lemma display_subs_eq subs episode_url fname e s :
  display_subs subs episode_url fname e s =
  (inr tt, add_events s (map (display_event e episode_url fname) subs)).
Proof.
  revert s. induction subs as [| item rest IH]; intros s.
  - unfold add_events. simpl. rewrite app_nil_r. destruct s; reflexivity.
  - cbn [display_subs]. cbv [bind ask emit modify]. rewrite IH.
    unfold add_events. cbn [trace temp_exists files map].
    rewrite <- app_assoc. reflexivity.
Qed.

Section Extends.

Variable P : Event -> Prop.
Hypothesis P_not_eod : forall ev, not_eod ev -> P ev.

Local Abbreviation extends_with := (extends_with P).

Lemma ew_keep {A} (m : M A) :
  (forall e s, trace (snd (m e s)) = trace s) -> extends_with m.
Proof. intros H e s. exists []. rewrite H, app_nil_r. split; [reflexivity | constructor]. Qed.

Lemma ew_ret {A} (a : A) : extends_with (ret a).
Proof. apply ew_keep. reflexivity. Qed.

Lemma ew_raise {A} (x : exn) : extends_with (@raise A x).
Proof. apply ew_keep. reflexivity. Qed.

Lemma ew_ask : extends_with ask.
Proof. apply ew_keep. reflexivity. Qed.

Lemma ew_emit ev : not_eod ev -> extends_with (emit ev).
Proof.
  intros H e s. exists [ev]. split; [reflexivity |].
  constructor; [apply P_not_eod; exact H | constructor].
Qed.

Lemma ew_bind {A B} (m : M A) (f : A -> M B) :
  extends_with m -> (forall a, extends_with (f a)) -> extends_with (bind m f).
Proof.
  intros Hm Hf e s. unfold bind.
  destruct (Hm e s) as [evs1 [H1 F1]].
  destruct (m e s) as [[x | a] s'] eqn:E; cbn [snd] in *.
  - exists evs1. split; assumption.
  - destruct (Hf a e s') as [evs2 [H2 F2]]. exists (evs1 ++ evs2)%list.
    rewrite H2, H1, app_assoc. split; [reflexivity | apply Forall_app; split; assumption].
Qed.

Lemma ew_try_else {A B} (m : M A) (handler : exn -> option (M B)) (k : A -> M B) :
  extends_with m ->
  (forall x h, handler x = Some h -> extends_with h) ->
  (forall a, extends_with (k a)) ->
  extends_with (try_else m handler k).
Proof.
  intros Hm Hh Hk e s. unfold try_else.
  destruct (Hm e s) as [evs1 [H1 F1]].
  destruct (m e s) as [[x | a] s'] eqn:E; cbn [snd] in *.
  - destruct (handler x) as [h |] eqn:Eh.
    + destruct (Hh x h Eh e s') as [evs2 [H2 F2]]. exists (evs1 ++ evs2)%list.
      rewrite H2, H1, app_assoc. split; [reflexivity | apply Forall_app; split; assumption].
    + exists evs1. split; assumption.
  - destruct (Hk a e s') as [evs2 [H2 F2]]. exists (evs1 ++ evs2)%list.
    rewrite H2, H1, app_assoc. split; [reflexivity | apply Forall_app; split; assumption].
Qed.

Lemma ew_getitem params key : extends_with (getitem params key).
Proof. unfold getitem. destruct (dict_get params key); [apply ew_ret | apply ew_raise]. Qed.

Lemma ew_notification h m i t snd' : extends_with (notification h m i t snd').
Proof. apply ew_emit. exact I. Qed.

Lemma ew_display_subs subs episode_url fname : extends_with (display_subs subs episode_url fname).
Proof.
  induction subs as [| item rest IH]; cbn [display_subs]; [apply ew_ret |].
  apply ew_bind; [apply ew_ask | intros e].
  apply ew_bind; [apply ew_emit; exact I | intros _; exact IH].
Qed.

Lemma ew_extract_episode_data : extends_with extract_episode_data.
Proof.
  unfold extract_episode_data. apply ew_bind; [apply ew_ask | intros e].
  destruct (_ || _); [| apply ew_ret].
  destruct (parse_filename e _) as [[[? ?] ?] |]; [apply ew_ret |].
  destruct (parse_filename e _) as [[[? ?] ?] |]; [apply ew_ret |].
  apply ew_bind; [apply ew_notification | intros _; apply ew_raise].
Qed.

Lemma ew_choose_candidate cands i languages :
  extends_with (choose_candidate cands i languages).
Proof.
  unfold choose_candidate. destruct (0 <=? i)%Z; [| apply ew_ret].
  apply ew_bind.
  { unfold list_index. destruct (nth_error _ _); [apply ew_ret | apply ew_raise]. }
  intros cand. apply ew_try_else.
  - unfold parser_get_episode. apply ew_bind; [apply ew_emit; exact I | intros _].
    apply ew_bind; [apply ew_ask | intros e'].
    destruct (get_episode e' _ _); [apply ew_raise | apply ew_ret].
  - intros x h Hx. destruct x; try discriminate; injection Hx as <-.
    + apply ew_bind; [| intros _; apply ew_ret].
      unfold notify_connection_error. apply ew_bind; [apply ew_ask | intros; apply ew_notification].
    + apply ew_ret.
  - intros; apply ew_ret.
Qed.

Lemma ew_choose_episode results languages : extends_with (choose_episode results languages).
Proof.
  unfold choose_episode. destruct results as [subs url | cands]; [apply ew_ret |].
  apply ew_bind; [apply ew_ask | intros e].
  apply ew_bind; [| intros i; apply ew_choose_candidate].
  unfold select. apply ew_bind; [apply ew_emit; exact I | intros _].
  apply ew_bind; [apply ew_ask | intros; apply ew_ret].
Qed.

Lemma ew_show_episode r episode_data : extends_with (show_episode r episode_data).
Proof.
  unfold show_episode. destruct r as [res |]; [| apply ew_ret].
  apply ew_bind; [| intros; apply ew_display_subs].
  destruct res; [apply ew_ret | apply ew_raise].
Qed.

Lemma ew_search_query query languages episode_data :
  extends_with (search_query query languages episode_data).
Proof.
  unfold search_query. destruct (is_empty query); [apply ew_ret |].
  apply ew_try_else.
  - unfold parser_search_episode. apply ew_bind; [apply ew_emit; exact I | intros _].
    apply ew_bind; [apply ew_ask | intros e'].
    destruct (search_episode e' _ _); [apply ew_raise | apply ew_ret].
  - intros x h Hx. destruct x; try discriminate; injection Hx as <-.
    + unfold notify_connection_error. apply ew_bind; [apply ew_ask | intros; apply ew_notification].
    + apply ew_ret.
  - intros results. unfold present_results.
    apply ew_bind; [apply ew_choose_episode | intros r; apply ew_show_episode].
Qed.

Lemma ew_search_subs params : extends_with (search_subs params).
Proof.
  unfold search_subs. apply ew_bind; [apply ew_ask | intros e].
  apply ew_bind; [apply ew_getitem | intros langs].
  apply ew_try_else; [apply ew_extract_episode_data | |].
  - intros x h Hx. destruct (exn_eqb x ParseError); [injection Hx as <-; apply ew_ret | discriminate].
  - intros ed. apply ew_bind; [apply ew_getitem | intros action].
    apply ew_bind; [destruct (String.eqb action "search"); [apply ew_ret | apply ew_getitem] |].
    intros query. apply ew_search_query.
Qed.

Lemma ew_download_subs lnk referrer fname : extends_with (download_subs lnk referrer fname).
Proof.
  intros e s. destruct (download_subs_trace lnk referrer fname e s) as [rest Hr].
  rewrite download_subs_eq in *. cbv zeta in *. unfold clear_temp, add_events in *.
  destruct (temp_exists s);
    destruct (download_result e lnk referrer (subspath_of e fname)) as [[] |];
    cbn [snd trace] in *; rewrite <- ?app_assoc; cbn [app];
    eexists; (split; [reflexivity |]);
    repeat (constructor; [apply P_not_eod; exact I |]); constructor.
Qed.

End Extends.

(** ** C7: one episode is shown at once, several need a selection *)

Lemma search_query_found query languages ed e s results :
  is_empty query = false ->
  search_episode e query languages = inr results ->
  search_query query languages ed e s =
  present_results results languages ed e (add_events s [CallSearchEpisode query languages]).
Proof.
  intros Hq Hs. unfold search_query. rewrite Hq.
  cbv [try_else parser_search_episode bind emit modify ask]. rewrite Hs. reflexivity.
Qed.

Lemma present_results_candidates cands languages ed e s :
  present_results (Candidates cands) languages ed e s =
  bind (choose_candidate cands (select_answer e) languages)
       (fun r => show_episode r ed) e
       (add_events s [Select (get_ui_string e 32008) (map title cands)]).
Proof. reflexivity. Qed.

(** C7: for a non-empty query, when the provider answers with one episode
    its subtitles are listed right after the search call, with no selection
    dialog; when it answers with a list of candidates the selection dialog
    (their titles) comes right after the search call, before anything else,
    and when the user cancels it (a negative index) the flow ends there,
    normally, with no further provider call and nothing listed. *)
Theorem search_single_or_select query languages ed e s :
  is_empty query = false ->
  (forall subs url,
     search_episode e query languages = inr (Episode subs url) ->
     search_query query languages ed e s =
     (inr tt, add_events s (CallSearchEpisode query languages ::
                            map (display_event e url (filename ed)) subs))) /\
  (forall cands,
     search_episode e query languages = inr (Candidates cands) ->
     (exists rest,
        trace (snd (search_query query languages ed e s)) =
        (trace s ++ CallSearchEpisode query languages ::
         Select (get_ui_string e 32008) (map title cands) :: rest)%list) /\
     ((select_answer e < 0)%Z ->
      search_query query languages ed e s =
      (inr tt, add_events s [CallSearchEpisode query languages;
                             Select (get_ui_string e 32008) (map title cands)]))).
Proof.
  intros Hq. split.
  - intros subs url Hs. rewrite (search_query_found query languages ed e s _ Hq Hs).
    cbv [present_results choose_episode show_episode bind ret episode_fields].
    cbn [fst snd]. rewrite display_subs_eq. unfold add_events. cbn [trace temp_exists files].
    rewrite <- app_assoc. reflexivity.
  - intros cands Hs. rewrite (search_query_found query languages ed e s _ Hq Hs).
    rewrite present_results_candidates. split.
    + assert (Hx : extends_with (fun _ => True)
                       (bind (choose_candidate cands (select_answer e) languages)
                             (fun r => show_episode r ed))).
      { apply ew_bind; [apply ew_choose_candidate | intros r; apply ew_show_episode];
          intros; exact I. }
      destruct (Hx e (add_events (add_events s [CallSearchEpisode query languages])
                        [Select (get_ui_string e 32008) (map title cands)]))
        as [evs [H _]].
      exists evs. rewrite H. unfold add_events. cbn [trace].
      rewrite <- !app_assoc. reflexivity.
    + intros Hneg. unfold choose_candidate.
      replace (0 <=? select_answer e)%Z with false by (symmetry; apply Z.leb_gt; exact Hneg).
      unfold add_events. cbn. rewrite <- app_assoc. reflexivity.
Qed.

Lemma search_single_or_select_witness :
  let e := sample_env sample_now_played "false" (fun _ _ => inr (Candidates sample_candidates))
             (-1) None in
  is_empty "Show 01x02" = false /\
  search_query "Show 01x02" ["English"] (mkEpisodeData "Show" "01" "02" "Show.S01E02.mkv") e empty_st =
  (inr tt, add_events empty_st
             [CallSearchEpisode "Show 01x02" ["English"];
              Select "ui32008" ["Show - 1x02 - Pilot"; "Show (US) - 1x02 - Pilot"]]).
Proof.
  split; [reflexivity |].
  destruct (search_single_or_select "Show 01x02" ["English"]
              (mkEpisodeData "Show" "01" "02" "Show.S01E02.mkv")
              (sample_env sample_now_played "false"
                 (fun _ _ => inr (Candidates sample_candidates)) (-1) None)
              empty_st eq_refl) as [_ H].
  destruct (H sample_candidates eq_refl) as [_ H'].
  apply H'. vm_compute. reflexivity.
Defined.

(** ** C9: an empty query never reaches the provider *)

Lemma extract_episode_data_outcome e s :
  (exists ed, extract_episode_data e s = (inr ed, s)) \/
  extract_episode_data e s =
  (inl ParseError, add_events s [Notification (get_ui_string e 32002)
                                   (get_ui_string e 32006) "error" 3000 true]).
Proof.
  destruct (prefers_filename e) eqn:Ep.
  - rewrite (extract_episode_data_parse e s Ep).
    destruct (parse_filename e (played_basename e)) as [[[sh se] ep] |];
      [left; eexists; reflexivity |].
    destruct (parse_filename e (np_label (now_played e))) as [[[sh se] ep] |];
      [left; eexists; reflexivity | right; reflexivity].
  - left. rewrite (extract_episode_data_library e s Ep). eexists. reflexivity.
Qed.

(** C9: [search_query] with an empty query does nothing at all; a search
    whose query is the typed string (an action other than 'search') and whose
    typed string is empty ends normally with no provider call and no listed
    entry, its only possible effect being the identity-resolution
    notification; and the query built for the 'search' action is never
    empty. *)
Theorem empty_query_skips_provider params lg a e s :
  dict_get params "languages" = Some lg ->
  dict_get params "action" = Some a -> a <> "search" ->
  dict_get params "searchstring" = Some EmptyString ->
  (forall languages ed e' s', search_query EmptyString languages ed e' s' = (inr tt, s')) /\
  (search_subs params e s = (inr tt, s) \/
   search_subs params e s =
   (inr tt, add_events s [Notification (get_ui_string e 32002) (get_ui_string e 32006)
                            "error" 3000 true])) /\
  (forall ed, is_empty (normalize_showname e (showname ed) ++ " " ++
                        season ed ++ "x" ++ episode ed) = false).
Proof.
  intros Hl Ha Hna Hss. split; [reflexivity | split].
  - unfold search_subs, getitem. rewrite Hl.
    cbv [bind ask ret raise try_else].
    destruct (extract_episode_data_outcome e s) as [[ed Hx] | Hx]; rewrite Hx.
    + left. rewrite Ha. apply String.eqb_neq in Hna. rewrite Hna, Hss. reflexivity.
    + right. reflexivity.
  - intros ed. destruct (normalize_showname e (showname ed)); reflexivity.
Qed.

Lemma empty_query_skips_provider_witness :
  search_subs [("action", "manualsearch"); ("languages", "English");
               ("searchstring", EmptyString)]
    (env_search sample_now_played "false") empty_st = (inr tt, empty_st).
Proof.
  destruct (empty_query_skips_provider
              [("action", "manualsearch"); ("languages", "English");
               ("searchstring", EmptyString)] "English" "manualsearch"
              (env_search sample_now_played "false") empty_st
              eq_refl eq_refl ltac:(discriminate) eq_refl) as [_ [[H | H] _]].
  - exact H.
  - exfalso. vm_compute in H. discriminate H.
Defined.

(** C2 (counterexample): for the file name ["Show-S01E01-LOL.mkv"] the
    claimed tag is ["LOL"], non-empty and inside the version ["LOL"], yet the
    entry is not marked sync: [release_re] takes the text after the first
    ['-'], ["S01E01-LOL"]. And for ["Show-.mkv"] the claimed tag is empty,
    yet every entry is marked sync. *)
Lemma sync_marker_counterexample :
  ~ (forall e fname item,
       li_sync (list_item_for e fname item) = true <->
       exists t, claimed_release_tag fname = Some t /\ t <> EmptyString /\
                 str_contains (lower t) (lower (version item)) = true).
Proof.
  intros H.
  destruct (H (env_search sample_now_played "false") "Show-S01E01-LOL.mkv" (sync_item "LOL"))
    as [_ H2].
  assert (Hs : li_sync (list_item_for (env_search sample_now_played "false")
                          "Show-S01E01-LOL.mkv" (sync_item "LOL")) = true).
  { apply H2. exists "LOL". split; [reflexivity | split; [discriminate | reflexivity]]. }
  vm_compute in Hs. discriminate Hs.
Qed.

Lemma str_contains_empty h : str_contains EmptyString h = true.
Proof. destruct h; reflexivity. Qed.

Lemma empty_group_marks_sync e v :
  li_sync (list_item_for e "Show-.mkv" (sync_item v)) = true /\
  claimed_release_tag "Show-.mkv" = Some EmptyString.
Proof.
  split; [| reflexivity].
  unfold list_item_for. cbn [li_sync].
  replace (release_search "Show-.mkv") with (Some EmptyString) by reflexivity.
  apply str_contains_empty.
Qed.

Lemma lazy_group_upto_dot t x :
  str_has "."%char t = false -> str_has "["%char t = false -> str_has newline t = false ->
  lazy_group (t ++ String "."%char x) = Some t.
Proof.
  induction t as [| c r IH]; intros Hd Hb Hn; [reflexivity |].
  cbn [str_has] in Hd, Hb, Hn.
  apply orb_false_iff in Hd as [Hd Hd'], Hb as [Hb Hb'], Hn as [Hn Hn'].
  cbn [String.append lazy_group]. unfold release_tail.
  rewrite Ascii.eqb_sym in Hd, Hb, Hn. rewrite Hb, Hd, Hn. cbn [andb orb].
  rewrite IH by assumption. reflexivity.
Qed.

(** For a file name ["<P>-<T>.<X>"] with no ['-'] in [P] and no ['.'], ['[']
    or newline in [T], [release_re] finds [T]. *)
Lemma release_search_first_dash p t x :
  str_has "-"%char p = false ->
  str_has "."%char t = false -> str_has "["%char t = false -> str_has newline t = false ->
  release_search (p ++ "-" ++ t ++ "." ++ x) = Some t.
Proof.
  intros Hp Hd Hb Hn. induction p as [| c r IH].
  - cbn [String.append release_search]. rewrite Ascii.eqb_refl.
    rewrite lazy_group_upto_dot by assumption. reflexivity.
  - cbn [str_has] in Hp. apply orb_false_iff in Hp as [Hc Hr].
    cbn [String.append release_search]. rewrite Ascii.eqb_sym in Hc. rewrite Hc.
    apply IH. exact Hr.
Qed.

(** C2 (amended): each listed entry is marked sync exactly when
    [release_re.search(filename)] matches and its group 1, lower-cased, occurs
    in the lower-cased version description. For a file name
    ["<P>-<T>.<X>"] with no ['-'] in [P] and no ['.'], ['['] or newline in
    [T], the group is [T], the text after the first ['-'] (so for
    ["Show-S01E01-LOL.mkv"] it is ["S01E01-LOL"]); and when the group is
    empty (as for ["Show-.mkv"]) every entry is marked sync. *)
Theorem display_subs_sync_marker e s item episode_url fname :
  display_subs [item] episode_url fname e s =
  (inr tt, add_events s [AddDirectoryItem (handle e) (item_url e episode_url fname item)
                           (list_item_for e fname item) false]) /\
  (li_sync (list_item_for e fname item) = true <->
   exists g, release_search fname = Some g /\
             str_contains (lower g) (lower (version item)) = true) /\
  (forall p t x,
     str_has "-"%char p = false ->
     str_has "."%char t = false -> str_has "["%char t = false -> str_has newline t = false ->
     fname = p ++ "-" ++ t ++ "." ++ x ->
     (li_sync (list_item_for e fname item) = true <->
      str_contains (lower t) (lower (version item)) = true)) /\
  (release_search fname = Some EmptyString -> li_sync (list_item_for e fname item) = true) /\
  release_search "Show-S01E01-LOL.mkv" = Some "S01E01-LOL" /\
  release_search "Show-.mkv" = Some EmptyString.
Proof.
  split; [apply display_subs_eq |].
  unfold list_item_for. cbn [li_sync].
  split; [| split; [| split; [| split; reflexivity]]].
  - destruct (release_search fname) as [g |]; split.
    + intros H. exists g. split; [reflexivity | exact H].
    + intros [g' [Hg H]]. injection Hg as <-. exact H.
    + discriminate.
    + intros [g' [Hg _]]. discriminate Hg.
  - intros p t x Hp Hd Hb Hn ->. rewrite release_search_first_dash by assumption.
    reflexivity.
  - intros H. rewrite H. apply str_contains_empty.
Qed.

Lemma search_query_ok query languages ed e s :
  world_ok e -> exists s', search_query query languages ed e s = (inr tt, s').
Proof.
  intros Hw. destruct (is_empty query) eqn:Hq;
    [unfold search_query; rewrite Hq; eexists; reflexivity |].
  pose proof (wo_search e Hw query languages) as Hh.
  destruct (search_episode e query languages) as [x | results] eqn:Hs.
  - unfold search_query. rewrite Hq. unfold try_else.
    cbv [parser_search_episode bind emit modify ask raise]. rewrite Hs.
    destruct x; try discriminate Hh; eexists; reflexivity.
  - rewrite (search_query_found query languages ed e s results Hq Hs).
    destruct results as [subs url | cands].
    + cbv [present_results choose_episode show_episode bind ret episode_fields].
      cbn [fst snd]. rewrite display_subs_eq. eexists; reflexivity.
    + rewrite present_results_candidates. unfold choose_candidate.
      pose proof (wo_select e Hw query languages cands Hs) as Hsel.
      destruct (0 <=? select_answer e)%Z eqn:Hi; [| eexists; reflexivity].
      apply Z.leb_le in Hi.
      destruct (nth_error cands (Z.to_nat (select_answer e))) as [cand |] eqn:Hn.
      2: { apply nth_error_None in Hn. lia. }
      unfold list_index. rewrite Hn.
      pose proof (wo_get e Hw (cand_link cand) languages) as Hg.
      cbv [bind ret try_else parser_get_episode emit modify ask raise].
      destruct (get_episode e (cand_link cand) languages) as [[] | [subs url | ?]];
        try discriminate Hg; cbn; try (eexists; reflexivity).
      rewrite display_subs_eq. eexists; reflexivity.
Qed.

Lemma search_subs_ok params a e s :
  world_ok e ->
  dict_get params "languages" <> None ->
  dict_get params "action" = Some a ->
  (a <> "search" -> dict_get params "searchstring" <> None) ->
  exists s', search_subs params e s = (inr tt, s').
Proof.
  intros Hw Hl Ha Hss. unfold search_subs, getitem at 1.
  destruct (dict_get params "languages") as [lg |] eqn:El; [| contradiction].
  cbv [bind ask ret]. unfold try_else.
  destruct (extract_episode_data_outcome e s) as [[ed Hx] | Hx]; rewrite Hx;
    [| eexists; reflexivity].
  unfold getitem. rewrite Ha. cbv [ret].
  destruct (String.eqb a "search") eqn:Es.
  - apply search_query_ok. exact Hw.
  - apply String.eqb_neq in Es.
    destruct (dict_get params "searchstring") as [q |]; [| exfalso; exact (Hss Es eq_refl)].
    cbv [ret]. apply search_query_ok. exact Hw.
Qed.

Lemma download_subs_ok lnk referrer fname e s :
  world_ok e -> exists s', download_subs lnk referrer fname e s = (inr tt, s').
Proof.
  intros Hw. rewrite download_subs_eq. cbv zeta.
  pose proof (wo_download e Hw lnk referrer (subspath_of e fname)) as Hd.
  destruct (download_result e lnk referrer (subspath_of e fname)) as [[] |];
    try discriminate Hd; eexists; reflexivity.
Qed.

Lemma getitem_found params key v e s :
  dict_get params key = Some v -> getitem params key e s = (inr v, s).
Proof. intros H. unfold getitem. rewrite H. reflexivity. Qed.

Lemma bind_end_of_directory (m : M unit) e s s1 :
  m e s = (inr tt, s1) ->
  bind m (fun _ => end_of_directory) e s = (inr tt, add_events s1 [EndOfDirectory (handle e)]).
Proof. intros H. unfold bind. rewrite H. reflexivity. Qed.

(** [parse_qsl] drops an empty value, so a manual search with an empty typed
    string fails on [params['searchstring']] with [KeyError], before the
    end of the listing. *)
Lemma router_empty_searchstring_key_error :
  router "action=manualsearch&languages=English&searchstring="
    (env_search sample_now_played "false") empty_st = (inl KeyError, empty_st).
Proof. vm_compute. reflexivity. Qed.

(** For a parameter string with its action and the action's
    keys (non-empty values), when the search flow's provider answers are
    results, connection failures or "no subtitles" (a chosen candidate's
    answer being one episode, the selection index -1 or valid) and the
    download answer is a success, a connection failure or the daily limit,
    [router] returns normally and its host calls end with exactly one
    [endOfDirectory], none before it: whatever the parse of the episode
    identity, whether the user cancels the selection, and however many
    entries were listed. *)
Theorem router_ends_listing_once ps e s :
  params_ok (parse_qsl ps) -> world_ok e ->
  exists evs s',
    router ps e s = (inr tt, s') /\
    trace s' = (trace s ++ evs ++ [EndOfDirectory (handle e)])%list /\
    Forall not_eod evs.
Proof.
  intros [a [Ha Hcase]] Hw. unfold router.
  rewrite (bind_inr _ _ e s a s (getitem_found _ _ _ e s Ha)).
  assert (Hbranch : forall (m : M unit),
             extends_with not_eod m ->
             (exists s1, m e s = (inr tt, s1)) ->
             exists evs s',
               bind m (fun _ => end_of_directory) e s = (inr tt, s') /\
               trace s' = (trace s ++ evs ++ [EndOfDirectory (handle e)])%list /\
               Forall not_eod evs).
  { intros m Hm [s1 H1]. destruct (Hm e s) as [evs [Ht Hf]]. rewrite H1 in Ht. cbn [snd] in Ht.
    exists evs, (add_events s1 [EndOfDirectory (handle e)]).
    split; [apply bind_end_of_directory; exact H1 |].
    split; [unfold add_events; cbn [trace]; rewrite Ht, <- app_assoc; reflexivity | exact Hf]. }
  destruct Hcase as [[Hsm [Hl Hss]] | [Hd [Hlk [Hr Hf]]]].
  - replace (String.eqb a "search" || String.eqb a "manualsearch") with true
      by (destruct Hsm as [-> | ->]; reflexivity).
    apply Hbranch; [apply ew_search_subs; intros ev H; exact H |].
    apply (search_subs_ok _ a); try assumption.
    intros Hns Hn. apply Hss; [| exact Hn].
    destruct Hsm as [-> | ->]; [contradiction | reflexivity].
  - subst a. cbn [String.eqb orb Ascii.eqb Bool.eqb].
    apply Hbranch.
    + apply ew_bind; [apply ew_getitem | intros lnk].
      apply ew_bind; [apply ew_getitem | intros ref].
      apply ew_bind; [apply ew_getitem | intros fname].
      apply ew_download_subs; intros ev H; exact H.
    + destruct (dict_get (parse_qsl ps) "link") as [lnk |] eqn:E1; [| contradiction].
      destruct (dict_get (parse_qsl ps) "ref") as [ref |] eqn:E2; [| contradiction].
      destruct (dict_get (parse_qsl ps) "filename") as [fname |] eqn:E3; [| contradiction].
      rewrite (bind_inr _ _ e s lnk s (getitem_found _ _ _ e s E1)).
      rewrite (bind_inr _ _ e s ref s (getitem_found _ _ _ e s E2)).
      rewrite (bind_inr _ _ e s fname s (getitem_found _ _ _ e s E3)).
      apply download_subs_ok. exact Hw.
Qed.

Lemma env_search_world_ok : world_ok (env_search sample_now_played "false").
Proof.
  constructor.
  - intros; reflexivity.
  - intros; reflexivity.
  - intros q l cands H. discriminate H.
  - intros; reflexivity.
Qed.

Lemma router_ends_listing_once_witness :
  exists evs s',
    router "action=search&languages=English" (env_search sample_now_played "false") empty_st
    = (inr tt, s') /\
    trace s' = (evs ++ [EndOfDirectory 1])%list.
Proof.
  assert (Hp : params_ok (parse_qsl "action=search&languages=English")).
  { exists "search". split; [reflexivity |]. left.
    split; [left; reflexivity | split; [discriminate | intros H; discriminate H]]. }
  destruct (router_ends_listing_once "action=search&languages=English"
              (env_search sample_now_played "false") empty_st Hp env_search_world_ok)
    as [evs [s' [H1 [H2 _]]]].
  exists evs, s'. split; [exact H1 | exact H2].
Defined.

(** ** Further properties of the module *)

Lemma unquote_quote_plus_cons c r :
  unquote (replace_char "+"%char " "%char (quote_plus (String c r))) =
  String c (unquote (replace_char "+"%char " "%char (quote_plus r))).
Proof. destruct c as [[] [] [] [] [] [] [] []]; reflexivity. Qed.

Lemma unquote_plus_quote_plus s : unquote_plus (quote_plus s) = s.
Proof.
  unfold unquote_plus. induction s as [| c r IH]; [reflexivity |].
  rewrite unquote_quote_plus_cons, IH. reflexivity.
Qed.

Lemma quote_plus_no_amp_cons c r :
  str_has "&"%char (quote_plus (String c r)) = str_has "&"%char (quote_plus r).
Proof. destruct c as [[] [] [] [] [] [] [] []]; reflexivity. Qed.

Lemma quote_plus_no_eq_cons c r :
  str_has "="%char (quote_plus (String c r)) = str_has "="%char (quote_plus r).
Proof. destruct c as [[] [] [] [] [] [] [] []]; reflexivity. Qed.

Lemma quote_plus_no_amp s : str_has "&"%char (quote_plus s) = false.
Proof. induction s as [| c r IH]; [reflexivity |]. rewrite quote_plus_no_amp_cons. exact IH. Qed.

Lemma quote_plus_no_eq s : str_has "="%char (quote_plus s) = false.
Proof. induction s as [| c r IH]; [reflexivity |]. rewrite quote_plus_no_eq_cons. exact IH. Qed.

Lemma quote_plus_empty s : is_empty (quote_plus s) = is_empty s.
Proof.
  destruct s as [| c r]; [reflexivity |]. cbn [quote_plus].
  destruct (_ || _); [reflexivity |]. destruct (_ =? _)%nat; reflexivity.
Qed.

Lemma split_on_not_nil c s : split_on c s <> [].
Proof.
  destruct s as [| d r]; cbn [split_on]; [discriminate |].
  destruct (split_on c r) as [| w ws]; [discriminate |]. destruct (Ascii.eqb d c); discriminate.
Qed.

Lemma split_on_app c x t :
  str_has c x = false ->
  split_on c (x ++ t) = (x ++ hd EmptyString (split_on c t)) :: tl (split_on c t).
Proof.
  induction x as [| d x IH]; intros H.
  - cbn [append]. destruct (split_on c t) as [| w ws] eqn:E;
      [exfalso; exact (split_on_not_nil c t E) | reflexivity].
  - cbn [str_has] in H. apply orb_false_iff in H as [Hd Hx].
    cbn [append split_on]. rewrite (IH Hx). rewrite Ascii.eqb_sym, Hd. reflexivity.
Qed.

Lemma split_on_sep c t : split_on c (String c t) = EmptyString :: split_on c t.
Proof.
  cbn [split_on]. destruct (split_on c t) as [| w ws] eqn:E;
    [exfalso; exact (split_on_not_nil c t E) |]. rewrite Ascii.eqb_refl. reflexivity.
Qed.

Lemma append_empty_r (x : string) : x ++ EmptyString = x.
Proof. induction x as [| c r IH]; [reflexivity | cbn; rewrite IH; reflexivity]. Qed.

Lemma split_on_no_sep c x : str_has c x = false -> split_on c x = [x].
Proof.
  intros H. rewrite <- (append_empty_r x) at 1. rewrite (split_on_app c x EmptyString H).
  rewrite append_empty_r. reflexivity.
Qed.

Lemma split_on_concat c xs :
  xs <> [] -> Forall (fun x => str_has c x = false) xs ->
  split_on c (String.concat (String c EmptyString) xs) = xs.
Proof.
  induction xs as [| x xs IH]; intros Hne Hall; [contradiction |].
  inversion Hall as [| ? ? Hx Hxs]; subst.
  destruct xs as [| y ys].
  - cbn [String.concat]. apply split_on_no_sep. exact Hx.
  - change (String.concat (String c EmptyString) (x :: y :: ys)) with
      (x ++ String c (String.concat (String c EmptyString) (y :: ys))).
    rewrite (split_on_app c x _ Hx), split_on_sep. cbn [hd tl].
    rewrite append_empty_r, IH; [reflexivity | discriminate | exact Hxs].
Qed.

Lemma split_once_app c x t :
  str_has c x = false -> split_once c (x ++ String c t) = Some (x, t).
Proof.
  induction x as [| d x IH]; intros H.
  - cbn. rewrite Ascii.eqb_refl. reflexivity.
  - cbn [str_has] in H. apply orb_false_iff in H as [Hd Hx].
    cbn [append split_once]. rewrite Ascii.eqb_sym, Hd, (IH Hx). reflexivity.
Qed.

Lemma parse_qsl_eq qs : parse_qsl qs = flat_map qsl_pair (split_on "&"%char qs).
Proof. reflexivity. Qed.

Lemma str_has_app c a b : str_has c (a ++ b) = str_has c a || str_has c b.
Proof. induction a as [| d a IH]; [reflexivity |]. cbn. rewrite IH, orb_assoc. reflexivity. Qed.

Lemma qsl_pair_field k v : v <> EmptyString -> qsl_pair (qsl_field (k, v)) = [(k, v)].
Proof.
  intros Hv. unfold qsl_pair, qsl_field.
  replace (is_empty (quote_plus k ++ "=" ++ quote_plus v)) with false
    by (destruct (quote_plus k); reflexivity).
  change ("=" ++ quote_plus v) with (String "="%char (quote_plus v)).
  rewrite split_once_app by apply quote_plus_no_eq.
  rewrite quote_plus_empty. destruct v as [| c r]; [contradiction |].
  cbn [is_empty]. rewrite !unquote_plus_quote_plus. reflexivity.
Qed.

Lemma qsl_field_no_amp kv : str_has "&"%char (qsl_field kv) = false.
Proof.
  destruct kv as [k v]. unfold qsl_field. rewrite str_has_app, quote_plus_no_amp.
  change ("=" ++ quote_plus v) with (String "="%char (quote_plus v)).
  cbn [str_has]. rewrite quote_plus_no_amp. reflexivity.
Qed.

Lemma urlencode_eq kvs : urlencode kvs = String.concat "&" (map qsl_field kvs).
Proof.
  unfold urlencode. reflexivity.
Qed.

Lemma parse_qsl_urlencode_h kvs :
  Forall (fun kv => snd kv <> EmptyString) kvs -> parse_qsl (urlencode kvs) = kvs.
Proof.
  intros Hv. rewrite parse_qsl_eq, urlencode_eq.
  destruct kvs as [| kv0 kvs0]; [reflexivity |].
  rewrite split_on_concat.
  - generalize dependent (kv0 :: kvs0). clear kv0 kvs0.
    induction l as [| [k v] kvs IH]; intros Hv; [reflexivity |].
    inversion Hv as [| ? ? Hkv Hrest]; subst. cbn [snd] in Hkv.
    cbn [map flat_map]. rewrite (IH Hrest), (qsl_pair_field k v Hkv). reflexivity.
  - discriminate.
  - apply Forall_forall. intros x Hx. apply in_map_iff in Hx as [kv [<- _]].
    apply qsl_field_no_amp.
Qed.

Lemma unquote_nonempty s : s <> EmptyString -> unquote s <> EmptyString.
Proof.
  destruct s as [| c t]; [contradiction |]. intros _. cbn [unquote].
  destruct (Ascii.eqb c "%"%char); [| discriminate].
  destruct t as [| a [| b r]]; try discriminate.
  destruct (hex_val a), (hex_val b); discriminate.
Qed.

Lemma unquote_plus_nonempty s : s <> EmptyString -> unquote_plus s <> EmptyString.
Proof.
  intros H. unfold unquote_plus. apply unquote_nonempty.
  destruct s; [contradiction | discriminate].
Qed.

Lemma parse_qsl_in_nonempty ps k v : In (k, v) (parse_qsl ps) -> v <> EmptyString.
Proof.
  rewrite parse_qsl_eq. intros H. apply in_flat_map in H as [nv [_ H]].
  unfold qsl_pair in H. destruct (is_empty nv); [destruct H |].
  destruct (split_once "="%char nv) as [[n w] |]; [| destruct H].
  destruct (is_empty w) eqn:Ew; [destruct H |].
  destruct H as [H | []]. injection H as _ <-. apply unquote_plus_nonempty.
  destruct w; [discriminate | discriminate].
Qed.

Lemma dict_get_in params key v : dict_get params key = Some v -> exists k, In (k, v) params.
Proof.
  unfold dict_get. destruct (find _ (rev params)) as [[k w] |] eqn:E; [| discriminate].
  intros H. injection H as <-. exists k. apply find_some in E as [E _].
  apply in_rev. exact E.
Qed.

(** X4: every value [router] reads from its parameter string is non-empty
    ([parse_qsl] drops blank values). *)
Theorem parse_qsl_values_nonempty ps key v :
  dict_get (parse_qsl ps) key = Some v -> v <> EmptyString.
Proof. intros H. destruct (dict_get_in _ _ _ H) as [k Hk]. exact (parse_qsl_in_nonempty ps k v Hk). Qed.

(** X1: [urlencode] and [parse_qsl] are inverse on pairs whose values are
    non-empty: parsing the encoded query gives back every pair, in order,
    keys and values byte for byte. *)
Theorem parse_qsl_urlencode kvs :
  Forall (fun kv => snd kv <> EmptyString) kvs -> parse_qsl (urlencode kvs) = kvs.
Proof. apply parse_qsl_urlencode_h. Qed.

(** X2: the URL of an entry [display_subs] lists is [sys.argv[0]] then ['?']
    then the encoded download parameters, and [router] called with that
    query string runs [download_subs] with the subtitle's link, the episode
    URL as referrer and [unquote_plus(filename)], then ends the listing
    (link, episode URL and file name non-empty). *)
Theorem download_entry_routes_back e s episode_url fname item :
  link item <> EmptyString -> episode_url <> EmptyString -> fname <> EmptyString ->
  item_url e episode_url fname item =
    argv0 e ++ "?" ++ urlencode (download_params (link item) episode_url fname) /\
  router (urlencode (download_params (link item) episode_url fname)) e s =
    (download_subs (link item) episode_url (unquote_plus fname) ;;; end_of_directory) e s.
Proof.
  intros Hl Hr Hf. split; [reflexivity |].
  unfold router. rewrite parse_qsl_urlencode_h
    by (repeat constructor; cbn [snd]; assumption || discriminate).
  reflexivity.
Qed.

Lemma replace_plus_id f : str_has "+"%char f = false -> replace_char "+"%char " "%char f = f.
Proof.
  induction f as [| c r IH]; intros H; [reflexivity |].
  cbn [str_has] in H. apply orb_false_iff in H as [Hc Hr]. cbn [replace_char].
  rewrite Ascii.eqb_sym, Hc, (IH Hr). reflexivity.
Qed.

Lemma unquote_id f : str_has "%"%char f = false -> unquote f = f.
Proof.
  induction f as [| c r IH]; intros H; [reflexivity |].
  cbn [str_has] in H. apply orb_false_iff in H as [Hc Hr]. cbn [unquote].
  rewrite Ascii.eqb_sym, Hc, (IH Hr). reflexivity.
Qed.

Lemma unquote_app_plain a b : str_has "%"%char a = false -> unquote (a ++ b) = a ++ unquote b.
Proof.
  induction a as [| c r IH]; intros H; [reflexivity |].
  cbn [str_has] in H. apply orb_false_iff in H as [Hc Hr]. cbn [append unquote].
  rewrite Ascii.eqb_sym, Hc, (IH Hr). reflexivity.
Qed.

Lemma replace_char_app x y a b : replace_char x y (a ++ b) = replace_char x y a ++ replace_char x y b.
Proof. induction a as [| c r IH]; [reflexivity | cbn; rewrite IH; reflexivity]. Qed.

Lemma str_has_replace_plus f :
  str_has "%"%char (replace_char "+"%char " "%char f) = str_has "%"%char f.
Proof.
  induction f as [| c r IH]; [reflexivity |]. cbn [replace_char str_has].
  rewrite IH. destruct (Ascii.eqb c "+"%char) eqn:E; [| reflexivity].
  apply Ascii.eqb_eq in E. subst c. reflexivity.
Qed.

(** X3: [router] decodes the file name of a download entry a second time:
    [parse_qsl] gives back the file name [display_subs] encoded, and
    [router] applies [unquote_plus] to it again. For a file name without
    ['%'] the download runs on the file name with every ['+'] turned into a
    space; a file name without ['+'] either comes through unchanged. *)
Theorem router_unquotes_filename_twice e s lnk episode_url fname :
  lnk <> EmptyString -> episode_url <> EmptyString -> fname <> EmptyString ->
  str_has "%"%char fname = false ->
  router (urlencode (download_params lnk episode_url fname)) e s =
    (download_subs lnk episode_url (replace_char "+"%char " "%char fname) ;;;
     end_of_directory) e s /\
  (str_has "+"%char fname = false -> replace_char "+"%char " "%char fname = fname).
Proof.
  intros Hl Hr Hf Hp. split; [| apply replace_plus_id].
  unfold router. rewrite parse_qsl_urlencode_h
    by (repeat constructor; cbn [snd]; assumption || discriminate).
  assert (Hu : unquote_plus fname = replace_char "+"%char " "%char fname).
  { unfold unquote_plus. apply unquote_id. rewrite str_has_replace_plus. exact Hp. }
  rewrite <- Hu.
  reflexivity.
Qed.

(** X5: a parameter string without an 'action' raises [KeyError] from
    [router] before any host call: not even the end of the listing is
    signalled. *)
Theorem router_missing_action ps e s :
  dict_get (parse_qsl ps) "action" = None -> router ps e s = (inl KeyError, s).
Proof. intros H. unfold router, getitem. rewrite H. reflexivity. Qed.

(** X6: for an action other than 'search', 'manualsearch' and 'download',
    [router] does nothing but end the listing. *)
Theorem router_unknown_action ps a e s :
  dict_get (parse_qsl ps) "action" = Some a ->
  a <> "search" -> a <> "manualsearch" -> a <> "download" ->
  router ps e s = (inr tt, add_events s [EndOfDirectory (handle e)]).
Proof.
  intros H H1 H2 H3. unfold router, getitem. rewrite H.
  apply String.eqb_neq in H1, H2, H3. cbv [bind ret]. rewrite H1, H2, H3. reflexivity.
Qed.

(** X7: a 'download' whose 'link', 'ref' or 'filename' is missing raises
    [KeyError] before any host call: the staging directory is not touched
    and the listing is not ended. *)
Theorem router_download_missing_key ps e s :
  dict_get (parse_qsl ps) "action" = Some "download" ->
  dict_get (parse_qsl ps) "link" = None \/ dict_get (parse_qsl ps) "ref" = None \/
  dict_get (parse_qsl ps) "filename" = None ->
  router ps e s = (inl KeyError, s).
Proof.
  intros H Hk. unfold router, getitem. rewrite H. cbv [bind ret raise].
  cbn [String.eqb Ascii.eqb Bool.eqb orb andb].
  destruct Hk as [Hk | [Hk | Hk]]; rewrite Hk; [reflexivity | |].
  - destruct (dict_get (parse_qsl ps) "link"); reflexivity.
  - destruct (dict_get (parse_qsl ps) "link"), (dict_get (parse_qsl ps) "ref"); reflexivity.
Qed.

(** X8: [search_subs] without 'languages' raises [KeyError] before anything
    else, before the episode identity is resolved. *)
Theorem search_subs_missing_languages params e s :
  dict_get params "languages" = None -> search_subs params e s = (inl KeyError, s).
Proof. intros H. unfold search_subs, getitem. rewrite H. reflexivity. Qed.

(** X9: a search whose action is not 'search' and which has no
    'searchstring' either raises [KeyError] with no host call, or, when the
    identity cannot be resolved, ends normally after the identity
    notification alone. *)
Theorem manualsearch_missing_searchstring params lg a e s :
  dict_get params "languages" = Some lg ->
  dict_get params "action" = Some a -> a <> "search" ->
  dict_get params "searchstring" = None ->
  search_subs params e s = (inl KeyError, s) \/
  search_subs params e s =
  (inr tt, add_events s [Notification (get_ui_string e 32002) (get_ui_string e 32006)
                           "error" 3000 true]).
Proof.
  intros Hl Ha Hna Hss. unfold search_subs, getitem. rewrite Hl.
  cbv [bind ask ret raise try_else].
  destruct (extract_episode_data_outcome e s) as [[ed Hx] | Hx]; rewrite Hx.
  - left. rewrite Ha. apply String.eqb_neq in Hna. rewrite Hna, Hss. reflexivity.
  - right. reflexivity.
Qed.

(** X10: when the provider's search signals a condition, [search_query]
    (non-empty query) makes the search call and then: on a connection
    failure shows one connectivity notification and returns; on no subtitles
    returns silently; on any other condition lets it propagate. *)
Theorem search_query_provider_errors query languages ed e s x :
  is_empty query = false ->
  search_episode e query languages = inl x ->
  search_query query languages ed e s =
  match x with
  | ConnectionError =>
      (inr tt, add_events s [CallSearchEpisode query languages;
                             Notification (get_ui_string e 32002) (get_ui_string e 32005)
                               "error" notification_default_time true])
  | SubsSearchError => (inr tt, add_events s [CallSearchEpisode query languages])
  | _ => (inl x, add_events s [CallSearchEpisode query languages])
  end.
Proof.
  intros Hq Hs. unfold search_query. rewrite Hq. unfold try_else.
  cbv [parser_search_episode notify_connection_error notification bind emit modify ask raise ret].
  rewrite Hs. unfold add_events.
  destruct x; cbn [trace temp_exists files]; rewrite <- ?app_assoc; reflexivity.
Qed.

(** X11: when the provider answers with candidates and the selection returns
    an index past the end of the list, the flow raises [IndexError] right
    after the selection dialog, with no further provider call. *)
Theorem candidate_index_out_of_range query languages ed e s cands :
  is_empty query = false ->
  search_episode e query languages = inr (Candidates cands) ->
  (0 <= select_answer e)%Z ->
  (length cands <= Z.to_nat (select_answer e))%nat ->
  search_query query languages ed e s =
  (inl IndexError, add_events s [CallSearchEpisode query languages;
                                 Select (get_ui_string e 32008) (map title cands)]).
Proof.
  intros Hq Hs Hi Hlen. rewrite (search_query_found query languages ed e s _ Hq Hs).
  rewrite present_results_candidates. unfold choose_candidate.
  apply Z.leb_le in Hi. rewrite Hi.
  unfold list_index. rewrite (proj2 (nth_error_None cands _) Hlen).
  unfold add_events. cbn. rewrite <- app_assoc. reflexivity.
Qed.

(** X12: for a valid selected candidate the flow asks the provider for that
    candidate's link and then: lists the episode's subtitles if the answer
    is one episode; raises [AttributeError] if it is again a list; shows the
    connectivity notification on a connection failure; returns silently on
    no subtitles; propagates any other condition. *)
Theorem chosen_candidate_answer query languages ed e s cands c :
  is_empty query = false ->
  search_episode e query languages = inr (Candidates cands) ->
  (0 <= select_answer e)%Z ->
  nth_error cands (Z.to_nat (select_answer e)) = Some c ->
  let pre := [CallSearchEpisode query languages;
              Select (get_ui_string e 32008) (map title cands);
              CallGetEpisode (cand_link c) languages] in
  search_query query languages ed e s =
  match get_episode e (cand_link c) languages with
  | inr (Episode subs url) =>
      (inr tt, add_events s (pre ++ map (display_event e url (filename ed)) subs))
  | inr (Candidates _) => (inl AttributeError, add_events s pre)
  | inl ConnectionError =>
      (inr tt, add_events s (pre ++ [Notification (get_ui_string e 32002)
                                       (get_ui_string e 32005) "error"
                                       notification_default_time true]))
  | inl SubsSearchError => (inr tt, add_events s pre)
  | inl x => (inl x, add_events s pre)
  end.
Proof.
  intros Hq Hs Hi Hn pre. rewrite (search_query_found query languages ed e s _ Hq Hs).
  rewrite present_results_candidates. unfold choose_candidate.
  apply Z.leb_le in Hi. rewrite Hi. unfold list_index. rewrite Hn.
  unfold pre; clear pre.
  cbv [bind ret try_else parser_get_episode notify_connection_error notification
       emit modify ask raise show_episode episode_fields].
  destruct (get_episode e (cand_link c) languages) as [[] | [subs url | ?]];
    cbn [fst snd]; try rewrite display_subs_eq;
    unfold add_events; cbn [trace temp_exists files]; rewrite <- ?app_assoc; reflexivity.
Qed.

Lemma cf_keep {A} (m : M A) : (forall e s, snd (m e s) = s) -> confined m.
Proof.
  intros H e s. exists []. rewrite H. split; [| reflexivity].
  unfold add_events. rewrite app_nil_r. destruct s; reflexivity.
Qed.

Lemma cf_ret {A} (a : A) : confined (ret a).
Proof. apply cf_keep. reflexivity. Qed.

Lemma cf_raise {A} (x : exn) : confined (@raise A x).
Proof. apply cf_keep. reflexivity. Qed.

Lemma cf_ask : confined ask.
Proof. apply cf_keep. reflexivity. Qed.

Lemma cf_emit ev : search_event ev = true -> confined (emit ev).
Proof. intros H e s. exists [ev]. split; [reflexivity | cbn; rewrite H; reflexivity]. Qed.

Lemma add_events_app s evs1 evs2 : add_events (add_events s evs1) evs2 = add_events s (evs1 ++ evs2).
Proof. unfold add_events. cbn. rewrite app_assoc. reflexivity. Qed.

Lemma cf_bind {A B} (m : M A) (f : A -> M B) :
  confined m -> (forall a, confined (f a)) -> confined (bind m f).
Proof.
  intros Hm Hf e s. unfold bind.
  destruct (Hm e s) as [evs1 [H1 F1]].
  destruct (m e s) as [[x | a] s'] eqn:E; cbn [snd] in *.
  - exists evs1. split; assumption.
  - destruct (Hf a e s') as [evs2 [H2 F2]]. exists (evs1 ++ evs2)%list.
    rewrite H2, H1, add_events_app, forallb_app, F1, F2. split; reflexivity.
Qed.

Lemma cf_try_else {A B} (m : M A) (handler : exn -> option (M B)) (k : A -> M B) :
  confined m -> (forall x h, handler x = Some h -> confined h) -> (forall a, confined (k a)) ->
  confined (try_else m handler k).
Proof.
  intros Hm Hh Hk e s. unfold try_else.
  destruct (Hm e s) as [evs1 [H1 F1]].
  destruct (m e s) as [[x | a] s'] eqn:E; cbn [snd] in *.
  - destruct (handler x) as [h |] eqn:Eh.
    + destruct (Hh x h Eh e s') as [evs2 [H2 F2]]. exists (evs1 ++ evs2)%list.
      rewrite H2, H1, add_events_app, forallb_app, F1, F2. split; reflexivity.
    + exists evs1. split; assumption.
  - destruct (Hk a e s') as [evs2 [H2 F2]]. exists (evs1 ++ evs2)%list.
    rewrite H2, H1, add_events_app, forallb_app, F1, F2. split; reflexivity.
Qed.

Lemma cf_getitem params key : confined (getitem params key).
Proof. unfold getitem. destruct (dict_get params key); [apply cf_ret | apply cf_raise]. Qed.

Lemma cf_notification h m i t snd' : confined (notification h m i t snd').
Proof. apply cf_emit. reflexivity. Qed.

Lemma cf_notify_connection_error : confined notify_connection_error.
Proof. apply cf_bind; [apply cf_ask | intros; apply cf_notification]. Qed.

Lemma cf_display_subs subs episode_url fname : confined (display_subs subs episode_url fname).
Proof.
  induction subs as [| item rest IH]; cbn [display_subs]; [apply cf_ret |].
  apply cf_bind; [apply cf_ask | intros e].
  apply cf_bind; [apply cf_emit; reflexivity | intros _; exact IH].
Qed.

Lemma cf_extract_episode_data : confined extract_episode_data.
Proof.
  unfold extract_episode_data. apply cf_bind; [apply cf_ask | intros e].
  destruct (_ || _); [| apply cf_ret].
  destruct (parse_filename e _) as [[[? ?] ?] |]; [apply cf_ret |].
  destruct (parse_filename e _) as [[[? ?] ?] |]; [apply cf_ret |].
  apply cf_bind; [apply cf_notification | intros _; apply cf_raise].
Qed.

Lemma cf_provider_answer {A} (r : exn + A) : confined (match r with inl x => raise x | inr a => ret a end).
Proof. destruct r; [apply cf_raise | apply cf_ret]. Qed.

Lemma cf_choose_candidate cands i languages : confined (choose_candidate cands i languages).
Proof.
  unfold choose_candidate. destruct (0 <=? i)%Z; [| apply cf_ret].
  apply cf_bind.
  { unfold list_index. destruct (nth_error _ _); [apply cf_ret | apply cf_raise]. }
  intros cand. apply cf_try_else.
  - unfold parser_get_episode. apply cf_bind; [apply cf_emit; reflexivity | intros _].
    apply cf_bind; [apply cf_ask | intros e'; apply cf_provider_answer].
  - intros x h Hx. destruct x; try discriminate; injection Hx as <-.
    + apply cf_bind; [apply cf_notify_connection_error | intros _; apply cf_ret].
    + apply cf_ret.
  - intros; apply cf_ret.
Qed.

Lemma cf_search_query query languages episode_data :
  confined (search_query query languages episode_data).
Proof.
  unfold search_query. destruct (is_empty query); [apply cf_ret |].
  apply cf_try_else.
  - unfold parser_search_episode. apply cf_bind; [apply cf_emit; reflexivity | intros _].
    apply cf_bind; [apply cf_ask | intros e'; apply cf_provider_answer].
  - intros x h Hx. destruct x; try discriminate; injection Hx as <-;
      [apply cf_notify_connection_error | apply cf_ret].
  - intros results. unfold present_results. apply cf_bind.
    + unfold choose_episode. destruct results; [apply cf_ret |].
      apply cf_bind; [apply cf_ask | intros e].
      apply cf_bind; [| intros i; apply cf_choose_candidate].
      unfold select. apply cf_bind; [apply cf_emit; reflexivity | intros _].
      apply cf_bind; [apply cf_ask | intros; apply cf_ret].
    + intros r. unfold show_episode. destruct r as [res |]; [| apply cf_ret].
      apply cf_bind; [| intros; apply cf_display_subs].
      destruct res; [apply cf_ret | apply cf_raise].
Qed.

(** X13: the search flow never touches the file system or the staging
    directory, never downloads and never ends the listing: it only appends
    entries, notifications, selection dialogs and provider search calls to
    the host calls, whatever its outcome. *)
Theorem search_subs_leaves_fs params e s :
  exists evs, snd (search_subs params e s) = add_events s evs /\
              forallb search_event evs = true.
Proof.
  revert e s. unfold search_subs. apply cf_bind; [apply cf_ask | intros e].
  apply cf_bind; [apply cf_getitem | intros langs].
  apply cf_try_else; [apply cf_extract_episode_data | |].
  - intros x h Hx. destruct (exn_eqb x ParseError); [injection Hx as <-; apply cf_ret | discriminate].
  - intros ed. apply cf_bind; [apply cf_getitem | intros action].
    apply cf_bind; [destruct (String.eqb action "search"); [apply cf_ret | apply cf_getitem] |].
    intros query. apply cf_search_query.
Qed.

Lemma list_ascii_of_string_app (a b : string) :
  list_ascii_of_string (a ++ b) = (list_ascii_of_string a ++ list_ascii_of_string b)%list.
Proof. induction a as [| c r IH]; [reflexivity | cbn; rewrite IH; reflexivity]. Qed.

Lemma temp_ends e : exists a, temp e = a ++ "temp".
Proof.
  unfold temp, path_join. cbn [startswith].
  destruct (is_empty (profile e) || _).
  - eexists; reflexivity.
  - exists (profile e ++ "/"). rewrite append_assoc_str. reflexivity.
Qed.

Lemma path_join_temp e b :
  startswith b "/" = false -> path_join (temp e) b = temp e ++ "/" ++ b.
Proof.
  intros Hb. unfold path_join. rewrite Hb.
  destruct (temp_ends e) as [a Ha]. rewrite Ha.
  replace (is_empty (a ++ "temp")) with false by (destruct a; reflexivity).
  rewrite list_ascii_of_string_app, rev_app_distr. reflexivity.
Qed.

Lemma startswith_app_l (a b : string) : startswith (a ++ b) a = true.
Proof. induction a as [| c r IH]; [destruct b; reflexivity | cbn; rewrite Ascii.eqb_refl, IH; reflexivity]. Qed.

Lemma startswith_empty s : startswith s EmptyString = true.
Proof. destruct s; reflexivity. Qed.

(** X14: the staging path is the plain string [temp + '/' + filename[:-3] +
    'srt'] (nothing is normalised, so ['..'] components in the file name lead
    out of the staging directory: ['../../x.mkv'] gives
    [temp + '/../../x.srt']), unless [filename[:-3]] starts with ['/']: then
    [os.path.join] drops the staging directory and the path is
    [filename[:-3] + 'srt'] itself. *)
Theorem staging_path_location e fname :
  let x := drop_last3 fname in
  (startswith x "/" = false -> subspath_of e fname = temp e ++ "/" ++ x ++ "srt") /\
  (startswith x "/" = true -> subspath_of e fname = x ++ "srt") /\
  subspath_of e "../../x.mkv" = temp e ++ "/../../x.srt".
Proof.
  intros x. unfold subspath_of. fold x.
  assert (Hs : startswith (x ++ "srt") "/" = startswith x "/")
    by (destruct x; [reflexivity | cbn [startswith append]; rewrite !startswith_empty; reflexivity]).
  split; [| split].
  - intros Hx. apply path_join_temp. rewrite Hs. exact Hx.
  - intros Hx. unfold path_join. rewrite Hs, Hx. reflexivity.
  - apply path_join_temp. reflexivity.
Qed.

(** X15: [display_subs] lists one entry per subtitle, in the list's order,
    and does nothing else: label the language, label2 the version, thumbnail
    the converted language code, the hearing-impaired flag the subtitle's,
    not a folder. *)
Theorem display_subs_entries subs episode_url fname e s :
  display_subs subs episode_url fname e s =
  (inr tt, add_events s (map (fun item =>
     AddDirectoryItem (handle e) (item_url e episode_url fname item)
       (mkListItem (language item) (version item) (convert_language e (language item))
          (hi item) (li_sync (list_item_for e fname item))) false) subs)).
Proof. rewrite display_subs_eq. reflexivity. Qed.

Lemma str_nat_aux_length f n acc :
  (0 < f)%nat -> (S (String.length acc) <= String.length (str_nat_aux f n acc))%nat.
Proof.
  revert n acc. induction f as [| f IH]; intros n acc Hf; [lia |].
  cbn [str_nat_aux]. destruct (n <? 10)%nat; [cbn; lia |].
  destruct f as [| f']; [cbn; lia |].
  specialize (IH (n / 10) (String (ascii_of_nat (48 + n mod 10)) acc) ltac:(lia)).
  cbn [String.length] in IH. lia.
Qed.

Lemma zfill_str_nat n : zfill (str_nat n) 2 = pad2 n.
Proof.
  unfold pad2. destruct (n <? 10)%nat eqn:Hn.
  - apply Nat.ltb_lt in Hn.
    do 10 (destruct n as [| n]; [reflexivity |]). lia.
  - apply Nat.ltb_ge in Hn. unfold zfill.
    replace (2 <=? String.length (str_nat n))%nat with true; [reflexivity |].
    symmetry. apply Nat.leb_le. unfold str_nat. cbn [str_nat_aux].
    replace (n <? 10)%nat with false by (symmetry; apply Nat.ltb_ge; lia).
    pose proof (str_nat_aux_length n (n / 10) (String (ascii_of_nat (48 + n mod 10)) EmptyString)
                  ltac:(lia)) as H. cbn [String.length] in H. lia.
Qed.

(** X16: for library metadata, season and episode are [str(n).zfill(2)]: one
    leading zero for a one-digit number, the plain decimal otherwise; the
    show name is the library title, no host call is made and nothing is
    raised. *)
Theorem library_episode_data e s :
  prefers_filename e = false ->
  let np := now_played e in
  extract_episode_data e s =
  (inr (mkEpisodeData (np_showtitle np) (pad2 (np_season np)) (pad2 (np_episode np))
          (if is_video_ext (snd (splitext (played_basename e))) then played_basename e
           else placeholder_filename (np_showtitle np) (pad2 (np_season np))
                  (pad2 (np_episode np)))), s).
Proof.
  intros H np. rewrite (extract_episode_data_library e s H). cbv zeta.
  rewrite !zfill_str_nat. reflexivity.
Qed.

(** X17: a download never deletes a file outside the staging directory, and
    the only file it may add is the staging path. *)
Theorem download_keeps_other_files lnk referrer fname e s :
  let s' := snd (download_subs lnk referrer fname e s) in
  (forall f, In f (files s) -> under (temp e) f = false -> In f (files s')) /\
  (forall f, In f (files s') -> In f (files s) \/ f = subspath_of e fname).
Proof.
  intros s'. destruct (download_subs_fs lnk referrer fname e s) as [_ Hf].
  fold s' in Hf.
  assert (Hc : forall f, In f (files s) -> under (temp e) f = false -> In f (files (clear_temp e s))).
  { intros f Hin Hu. unfold clear_temp. destruct (temp_exists s); [| exact Hin].
    cbn [files]. apply filter_In. split; [exact Hin | rewrite Hu; reflexivity]. }
  assert (Hc' : forall f, In f (files (clear_temp e s)) -> In f (files s)).
  { intros f Hin. unfold clear_temp in Hin. destruct (temp_exists s); [| exact Hin].
    cbn [files] in Hin. apply filter_In in Hin as [Hin _]. exact Hin. }
  split.
  - intros f Hin Hu. rewrite Hf. specialize (Hc f Hin Hu).
    destruct (download_succeeds _ _ _ _); [| exact Hc].
    unfold add_file. destruct (existsb _ _); [exact Hc | apply in_or_app; left; exact Hc].
  - intros f Hin. rewrite Hf in Hin.
    destruct (download_succeeds _ _ _ _); [| left; apply Hc'; exact Hin].
    unfold add_file in Hin. destruct (existsb _ _); [left; apply Hc'; exact Hin |].
    apply in_app_or in Hin as [Hin | [Hin | []]]; [left; apply Hc'; exact Hin | right; auto].
Qed.

Lemma startswith_no_dot r : str_has "."%char r = false -> startswith r "." = false.
Proof.
  destruct r as [| d r]; [reflexivity |]. cbn [str_has startswith].
  intros H. apply orb_false_iff in H as [H _]. rewrite H. reflexivity.
Qed.

Lemma close_bracket_dot_no_dot s : str_has "."%char s = false -> close_bracket_dot s = false.
Proof.
  induction s as [| c r IH]; intros H; [reflexivity |].
  cbn [str_has] in H. apply orb_false_iff in H as [_ Hr].
  cbn [close_bracket_dot]. rewrite startswith_no_dot, IH by exact Hr.
  rewrite andb_false_r, andb_false_r. reflexivity.
Qed.

Lemma release_tail_no_dot s : str_has "."%char s = false -> release_tail s = false.
Proof.
  destruct s as [| c r]; [reflexivity |]. intros H. cbn [str_has] in H.
  apply orb_false_iff in H as [Hc Hr]. cbn [release_tail].
  rewrite close_bracket_dot_no_dot by exact Hr. rewrite (Ascii.eqb_sym c "."%char), Hc.
  rewrite andb_false_r. reflexivity.
Qed.

Lemma lazy_group_no_dot s : str_has "."%char s = false -> lazy_group s = None.
Proof.
  induction s as [| c r IH]; intros H; [reflexivity |].
  cbn [lazy_group]. rewrite release_tail_no_dot by exact H.
  cbn [str_has] in H. apply orb_false_iff in H as [_ Hr].
  destruct (Ascii.eqb c newline); [reflexivity | rewrite IH by exact Hr; reflexivity].
Qed.

Lemma release_search_none s :
  str_has "-"%char s = false \/ str_has "."%char s = false -> release_search s = None.
Proof.
  induction s as [| c r IH]; intros H; [reflexivity |].
  cbn [release_search]. cbn [str_has] in H.
  destruct H as [H | H]; apply orb_false_iff in H as [Hc Hr].
  - rewrite (Ascii.eqb_sym c "-"%char), Hc. apply IH. left. exact Hr.
  - destruct (Ascii.eqb c "-"%char); [rewrite lazy_group_no_dot by exact Hr |]; apply IH; right; exact Hr.
Qed.

(** X18: a file name with no ['-'] or no ['.'] marks no entry 'sync'. *)
Theorem no_sync_without_dash_and_dot e fname item :
  str_has "-"%char fname = false \/ str_has "."%char fname = false ->
  li_sync (list_item_for e fname item) = false.
Proof. intros H. unfold list_item_for. cbn [li_sync]. rewrite release_search_none by exact H. reflexivity. Qed.

(** X19: [router] ends the listing exactly when it returns normally, once
    and as its last host call; when an exception escapes it, the listing has
    not been ended. *)
Theorem router_ends_listing_iff_normal ps e s r s' :
  router ps e s = (r, s') ->
  exists evs, Forall not_eod evs /\
    ((r = inr tt /\ trace s' = (trace s ++ evs ++ [EndOfDirectory (handle e)])%list) \/
     ((exists x, r = inl x) /\ trace s' = (trace s ++ evs)%list)).
Proof.
  intros H. unfold router in H. cbv zeta in H. unfold getitem at 1 in H.
  destruct (dict_get (parse_qsl ps) "action") as [a |];
    [unfold bind at 1 in H; cbv [ret] in H
    | cbv [bind raise] in H; injection H as <- <-].
  - (* the action is found *)
    match type of H with bind ?m _ _ _ = _ =>
      assert (Hm : extends_with not_eod m) end.
    { destruct (_ || _); [apply ew_search_subs; intros ev Hv; exact Hv |].
      destruct (String.eqb _ "download"); [| apply ew_ret].
      apply ew_bind; [apply ew_getitem | intros lnk].
      apply ew_bind; [apply ew_getitem | intros ref].
      apply ew_bind; [apply ew_getitem | intros fname].
      apply ew_download_subs; intros ev Hv; exact Hv. }
    destruct (Hm e s) as [evs [Ht Hf]]. exists evs. split; [exact Hf |].
    unfold bind in H. destruct (_ e s) as [[x | []] s1] in H, Ht; cbn [snd] in Ht.
    + injection H as <- <-. right. split; [eexists; reflexivity | exact Ht].
    + cbv [end_of_directory bind ask emit modify] in H. injection H as <- <-.
      left. split; [reflexivity |]. cbn [trace]. rewrite Ht, <- app_assoc. reflexivity.
  - exists []. split; [constructor |]. right. split; [eexists; reflexivity | rewrite app_nil_r; reflexivity].
Qed.

Lemma parse_qsl_urlencode_witness :
  parse_qsl (urlencode (download_params "/updated/1/123/0" "/show/1/1/2" "Show S01E02+.mkv")) =
  download_params "/updated/1/123/0" "/show/1/1/2" "Show S01E02+.mkv".
Proof. apply parse_qsl_urlencode. repeat constructor; discriminate. Defined.

Lemma download_entry_routes_back_witness :
  router (urlencode (download_params "/updated/1/123/0" "/show/1/1/2" "Show.S01E02.mkv"))
    (env_dl None) empty_st =
  (download_subs "/updated/1/123/0" "/show/1/1/2" "Show.S01E02.mkv" ;;; end_of_directory)
    (env_dl None) empty_st.
Proof.
  exact (proj2 (download_entry_routes_back (env_dl None) empty_st "/show/1/1/2" "Show.S01E02.mkv"
                  sample_item ltac:(discriminate) ltac:(discriminate) ltac:(discriminate))).
Defined.

Lemma router_unquotes_filename_twice_witness :
  router (urlencode (download_params "/updated/1/123/0" "/show/1/1/2" "Show.S01E02+1.mkv"))
    (env_dl None) empty_st =
  (download_subs "/updated/1/123/0" "/show/1/1/2" "Show.S01E02 1.mkv" ;;; end_of_directory)
    (env_dl None) empty_st.
Proof.
  exact (proj1 (router_unquotes_filename_twice (env_dl None) empty_st "/updated/1/123/0"
                  "/show/1/1/2" "Show.S01E02+1.mkv"
                  ltac:(discriminate) ltac:(discriminate) ltac:(discriminate) eq_refl)).
Defined.

Lemma parse_qsl_values_nonempty_witness : "search" <> EmptyString.
Proof. apply (parse_qsl_values_nonempty "action=search&languages=English" "action"). reflexivity. Defined.

Lemma router_missing_action_witness :
  router "languages=English" (env_search sample_now_played "false") empty_st = (inl KeyError, empty_st).
Proof. apply router_missing_action. reflexivity. Defined.

Lemma router_unknown_action_witness :
  router "action=open&languages=English" (env_search sample_now_played "false") empty_st =
  (inr tt, add_events empty_st [EndOfDirectory 1]).
Proof. apply (router_unknown_action _ "open"); [reflexivity | discriminate | discriminate | discriminate]. Defined.

Lemma router_download_missing_key_witness :
  router "action=download&link=%2Fupdated%2F1%2F123%2F0&ref=%2Fshow%2F1%2F1%2F2"
    (env_dl None) empty_st = (inl KeyError, empty_st).
Proof. apply router_download_missing_key; [reflexivity | right; right; reflexivity]. Defined.

Lemma search_subs_missing_languages_witness :
  search_subs [("action", "search")] (env_search sample_now_played "false") empty_st =
  (inl KeyError, empty_st).
Proof. apply search_subs_missing_languages. reflexivity. Defined.

Lemma manualsearch_missing_searchstring_witness :
  search_subs [("action", "manualsearch"); ("languages", "English")]
    (env_search sample_now_played "false") empty_st = (inl KeyError, empty_st).
Proof.
  destruct (manualsearch_missing_searchstring [("action", "manualsearch"); ("languages", "English")]
              "English" "manualsearch" (env_search sample_now_played "false") empty_st
              eq_refl eq_refl ltac:(discriminate) eq_refl) as [H | H].
  - exact H.
  - exfalso. vm_compute in H. discriminate H.
Defined.

Lemma search_query_provider_errors_witness :
  search_query "Show 01x02" ["English"] sample_episode_data env_search_daily_limit empty_st =
  (inl DailyLimitError, add_events empty_st [CallSearchEpisode "Show 01x02" ["English"]]).
Proof.
  exact (search_query_provider_errors "Show 01x02" ["English"] sample_episode_data
           env_search_daily_limit empty_st DailyLimitError eq_refl eq_refl).
Defined.

Lemma candidate_index_out_of_range_witness :
  search_query "Show 01x02" ["English"] sample_episode_data (env_candidates 5) empty_st =
  (inl IndexError, add_events empty_st
     [CallSearchEpisode "Show 01x02" ["English"];
      Select "ui32008" ["Show - 1x02 - Pilot"; "Show (US) - 1x02 - Pilot"]]).
Proof.
  apply (candidate_index_out_of_range "Show 01x02" ["English"] sample_episode_data
           (env_candidates 5) empty_st sample_candidates); [reflexivity | reflexivity | vm_compute; discriminate | apply Nat.leb_le; reflexivity].
Defined.

Lemma chosen_candidate_answer_witness :
  search_query "Show 01x02" ["English"] sample_episode_data (env_candidates 1) empty_st =
  (inr tt, add_events empty_st
     ([CallSearchEpisode "Show 01x02" ["English"];
       Select "ui32008" ["Show - 1x02 - Pilot"; "Show (US) - 1x02 - Pilot"];
       CallGetEpisode "/show/2/1/2" ["English"]] ++
      map (display_event (env_candidates 1) "/show/1/1/2" "Show.S01E02.mkv") [sample_item])).
Proof.
  exact (chosen_candidate_answer "Show 01x02" ["English"] sample_episode_data
           (env_candidates 1) empty_st sample_candidates
           (mkEpisodeCandidate "Show (US) - 1x02 - Pilot" "/show/2/1/2")
           eq_refl eq_refl ltac:(discriminate) eq_refl).
Defined.

Lemma library_episode_data_witness :
  extract_episode_data (env_search np_library_mkv "false") empty_st =
  (inr (mkEpisodeData "Show" "01" "12" "Show.S01E12.mkv"), empty_st).
Proof.
  rewrite (library_episode_data (env_search np_library_mkv "false") empty_st eq_refl).
  vm_compute. reflexivity.
Defined.

Lemma no_sync_without_dash_and_dot_witness :
  li_sync (list_item_for (env_search sample_now_played "false") "Show.S01E02.mkv"
             (sync_item "S01E02")) = false.
Proof. apply no_sync_without_dash_and_dot. left. reflexivity. Defined.

Lemma router_ends_listing_iff_normal_witness :
  exists evs, Forall not_eod evs /\
    trace (snd (router "action=search&languages=English" env_search_daily_limit empty_st)) =
    (trace empty_st ++ evs)%list.
Proof.
  destruct (router_ends_listing_iff_normal "action=search&languages=English"
              env_search_daily_limit empty_st
              (fst (router "action=search&languages=English" env_search_daily_limit empty_st))
              (snd (router "action=search&languages=English" env_search_daily_limit empty_st))
              ltac:(vm_compute; reflexivity)) as [evs [Hf [[Hr _] | [_ Ht]]]].
  - exfalso. vm_compute in Hr. discriminate Hr.
  - exists evs. split; assumption.
Defined.

(** ** C1: a daily-limit signal in the search flow *)

(** C1 (the code diverges from the claim): [search_subs] catches only
    [ConnectionError] and [SubsSearchError] around [parser.search_episode];
    when the provider signals the daily limit for the search query (of the
    'search' action, or the typed string of a manual search), the signal
    escapes [router] right after the search call, and the end of the listing
    is never signalled. *)
Theorem router_search_daily_limit_escapes ps e s a lg ed q :
  dict_get (parse_qsl ps) "action" = Some a ->
  dict_get (parse_qsl ps) "languages" = Some lg ->
  extract_episode_data e s = (inr ed, s) ->
  (a = "search" /\
   q = normalize_showname e (showname ed) ++ " " ++ season ed ++ "x" ++ episode ed \/
   a = "manualsearch" /\ dict_get (parse_qsl ps) "searchstring" = Some q) ->
  search_episode e q (get_languages e (split_on ","%char (unquote_plus lg))) =
    inl DailyLimitError ->
  router ps e s =
  (inl DailyLimitError,
   add_events s [CallSearchEpisode q (get_languages e (split_on ","%char (unquote_plus lg)))]).
Proof.
  intros Ha Hl Hx Hq Hs.
  assert (Hne : is_empty q = false).
  { destruct Hq as [[_ ->] | [_ Hss]].
    - destruct (normalize_showname e (showname ed)); reflexivity.
    - destruct (dict_get_in _ _ _ Hss) as [k Hk].
      apply parse_qsl_in_nonempty in Hk. destruct q; [contradiction | reflexivity]. }
  assert (Hsq : search_query q (get_languages e (split_on ","%char (unquote_plus lg))) ed e s =
                (inl DailyLimitError,
                 add_events s [CallSearchEpisode q
                                 (get_languages e (split_on ","%char (unquote_plus lg)))])).
  { unfold search_query. rewrite Hne. unfold try_else.
    cbv [parser_search_episode bind emit modify ask raise]. rewrite Hs. reflexivity. }
  assert (Hss : search_subs (parse_qsl ps) e s =
                (inl DailyLimitError,
                 add_events s [CallSearchEpisode q
                                 (get_languages e (split_on ","%char (unquote_plus lg)))])).
  { unfold search_subs. rewrite (bind_inr _ _ e s e s eq_refl).
    rewrite (bind_inr _ _ e s lg s (getitem_found _ _ _ e s Hl)).
    unfold try_else at 1. rewrite Hx.
    rewrite (bind_inr _ _ e s a s (getitem_found _ _ _ e s Ha)).
    destruct Hq as [[-> ->] | [-> Hss]].
    - exact Hsq.
    - rewrite (bind_inr _ _ e s q s (getitem_found _ _ _ e s Hss)). exact Hsq. }
  unfold router. cbv zeta.
  rewrite (bind_inr _ _ e s a s (getitem_found _ _ _ e s Ha)).
  replace (String.eqb a "search" || String.eqb a "manualsearch") with true
    by (destruct Hq as [[-> _] | [-> _]]; reflexivity).
  unfold bind at 1. rewrite Hss. reflexivity.
Qed.

Lemma router_search_daily_limit_escapes_witness :
  router "action=search&languages=English" env_search_daily_limit empty_st =
  (inl DailyLimitError, add_events empty_st [CallSearchEpisode "Show 01x02" ["English"]]).
Proof.
  refine (eq_trans (router_search_daily_limit_escapes "action=search&languages=English"
                      env_search_daily_limit empty_st "search" "English"
                      (mkEpisodeData "Show" "01" "02" "b'Show'.01x02.foo") "Show 01x02"
                      _ _ _ _ _) _).
  - reflexivity.
  - reflexivity.
  - vm_compute. reflexivity.
  - left. split; reflexivity.
  - vm_compute. reflexivity.
  - vm_compute. reflexivity.
Defined.
